(** * The Hyper-key sublayer compiler of [src/utils.ts]

    A shallow embedding of [createHyperSubLayer] and [createHyperSubLayers]
    together with the fragment of JavaScript they rely on: plain objects as
    ordered property lists, [typeof], [Object.keys], [Object.entries], the
    [in] operator, object spread, and the [TypeError] those operations throw
    on [undefined] and on primitives. *)

From Stdlib Require Import String Ascii List ZArith Bool Arith Lia DecimalString.
Import ListNotations.
Open Scope string_scope.

(** ** JavaScript values *)

Module Js.

#[local] Set Warnings "-register-all".

(** The values that flow through the compiler.  A plain object is the list
    of its own enumerable properties in enumeration order (the order of
    [Object.keys]); a well-formed object has no repeated key, see
    [wf_object].  [null], booleans and functions are left out. *)
Inductive JsValue : Type :=
| JUndefined
| JString (s : string)
| JNumber (n : Z)
| JArray (items : list JsValue)
| JObject (props : list (string * JsValue)).

Definition Props : Type := list (string * JsValue).

Definition wf_object (o : Props) : Prop := NoDup (map fst o).

(** A computation either completes with a value or throws; the only
    exception the compiled functions can raise is a [TypeError]. *)
Inductive Result (A : Type) : Type :=
| Ok (a : A)
| TypeError.
Arguments Ok {A} a.
Arguments TypeError {A}.

Definition bind {A B} (r : Result A) (k : A -> Result B) : Result B :=
  match r with
  | Ok a => k a
  | TypeError => TypeError
  end.

Notation "x <- r ;; k" := (bind r (fun x => k))
  (at level 61, r at next level, right associativity).

(** [Array.prototype.map] with a callback that may throw: the first
    exception aborts the traversal. *)
Fixpoint map_r {A B} (f : A -> Result B) (l : list A) : Result (list B) :=
  match l with
  | [] => Ok []
  | x :: r =>
      y <- f x ;;
      ys <- map_r f r ;;
      Ok (y :: ys)
  end.

(** [Array.prototype.filter] with a callback that may throw. *)
Fixpoint filter_r {A} (f : A -> Result bool) (l : list A) : Result (list A) :=
  match l with
  | [] => Ok []
  | x :: r =>
      b <- f x ;;
      xs <- filter_r f r ;;
      Ok (if b then x :: xs else xs)
  end.

Definition typeof (v : JsValue) : string :=
  match v with
  | JUndefined => "undefined"
  | JString _ => "string"
  | JNumber _ => "number"
  | JArray _ => "object"
  | JObject _ => "object"
  end.

Definition string_of_nat (n : nat) : string :=
  NilEmpty.string_of_uint (Nat.to_uint n).

Fixpoint indexed {A} (i : nat) (xs : list A) : list (string * A) :=
  match xs with
  | [] => []
  | x :: r => (string_of_nat i, x) :: indexed (S i) r
  end.

Fixpoint chars (s : string) : list JsValue :=
  match s with
  | EmptyString => []
  | String c r => JString (String c EmptyString) :: chars r
  end.

(** Own enumerable string-keyed properties: those of an object, the
    indices of an array or of a string, none for a number. *)
Definition own_props (v : JsValue) : Props :=
  match v with
  | JObject props => props
  | JArray items => indexed 0 items
  | JString s => indexed 0 (chars s)
  | JNumber _ => []
  | JUndefined => []
  end.

(** [Object.keys(v)]: throws on [undefined]. *)
Definition Object_keys (v : JsValue) : Result (list string) :=
  match v with
  | JUndefined => TypeError
  | _ => Ok (map fst (own_props v))
  end.

(** [Object.entries(v)]: same order as [Object.keys]. *)
Definition Object_entries (v : JsValue) : Result Props :=
  match v with
  | JUndefined => TypeError
  | _ => Ok (own_props v)
  end.

(** [k in v]: throws unless [v] is an object.  Properties inherited from
    [Object.prototype] or [Array.prototype] are not modelled; the source
    only asks for ["to"], which is not one of them. *)
Definition js_in (k : string) (v : JsValue) : Result bool :=
  match v with
  | JObject _ | JArray _ => Ok (existsb (String.eqb k) (map fst (own_props v)))
  | _ => TypeError
  end.

(** The own property of [o] under [k], [undefined] when [o] owns none;
    members inherited from a prototype are not modelled. *)
Definition lookup (o : Props) (k : string) : JsValue :=
  match find (fun p => fst p =? k) o with
  | Some p => snd p
  | None => JUndefined
  end.

(** [v[k]] for an own property; a missing property reads as [undefined].
    The source only indexes values on which [Object.keys] has succeeded. *)
Definition get (v : JsValue) (k : string) : JsValue := lookup (own_props v) k.

(** [{...v}]: spreading [undefined] copies nothing. *)
Definition spread (v : JsValue) : Props := own_props v.

(** Defining property [k] in an object literal under construction: an
    existing key keeps its place and takes the new value, a new key goes
    last. *)
Fixpoint set_prop (k : string) (v : JsValue) (o : Props) : Props :=
  match o with
  | [] => [(k, v)]
  | (k', v') :: r =>
      if k' =? k then (k, v) :: r else (k', v') :: set_prop k v r
  end.

(** [{...base, k1: v1, ..., kn: vn}]. *)
Definition with_props (base : Props) (fields : Props) : Props :=
  fold_left (fun o p => set_prop (fst p) (snd p) o) fields base.

End Js.
Import Js.

(** ** The compiler *)

(** [KeyCode] comes from [./types], where it is a union of string
    literals; at run time a key code is a string. *)
Definition KeyCode : Type := string.

Definition dquote : string := String "034"%char EmptyString.

Definition generateSubLayerVariableName (key : KeyCode) : string :=
  "hyper_sublayer_" ++ key.

Definition createHyperSubLayer (sublayer_key : KeyCode) (commands : JsValue)
    (allSubLayerVariables : list string) : Result (list JsValue) :=
  let subLayerVariableName := generateSubLayerVariableName sublayer_key in
  let toggle :=
    JObject
      [ ("description", JString ("Toggle Hyper sublayer " ++ sublayer_key));
        ("type", JString "basic");
        ("from",
          JObject
            [ ("key_code", JString sublayer_key);
              ("modifiers", JObject [("optional", JArray [JString "any"])]) ]);
        ("to_if_alone",
          JArray
            [ JObject
                [ ("key_code", JString sublayer_key);
                  ("modifiers",
                    JArray
                      [ JString "left_shift";
                        JString "left_command";
                        JString "left_control";
                        JString "left_option" ]) ] ]);
        ("to_after_key_up",
          JArray
            [ JObject
                [ ("set_variable",
                    JObject
                      [ ("name", JString subLayerVariableName);
                        ("value", JNumber 0) ]) ] ]);
        ("to",
          JArray
            [ JObject
                [ ("set_variable",
                    JObject
                      [ ("name", JString subLayerVariableName);
                        ("value", JNumber 1) ]) ] ]);
        ("conditions",
          JArray
            (map
               (fun subLayerVariable =>
                  JObject
                    [ ("type", JString "variable_if");
                      ("name", JString subLayerVariable);
                      ("value", JNumber 0) ])
               (filter
                  (fun subLayerVariable =>
                     negb (subLayerVariable =? subLayerVariableName))
                  allSubLayerVariables)
             ++ [ JObject
                    [ ("type", JString "variable_if");
                      ("name", JString "hyper");
                      ("value", JNumber 1) ] ])) ] in
  command_keys <- Object_keys commands ;;
  Ok
    (toggle
     :: map
          (fun command_key =>
             JObject
               (with_props
                  (spread (get commands command_key))
                  [ ("type", JString "basic");
                    ("from",
                      JObject
                        [ ("key_code", JString command_key);
                          ("modifiers",
                            JObject [("optional", JArray [JString "any"])]) ]);
                    ("conditions",
                      JArray
                        [ JObject
                            [ ("type", JString "variable_if");
                              ("name", JString subLayerVariableName);
                              ("value", JNumber 1) ] ]) ]))
          command_keys).

(** The callback of the [filter] that selects the keys whose variable
    enters the registry (lines 135-144). *)
Definition registryFilter (subLayers : Props) (sublayer_key : KeyCode)
    : Result bool :=
  if typeof (lookup subLayers sublayer_key) =? "undefined" then Ok false
  else if typeof (lookup subLayers sublayer_key) =? "string" then Ok false
  else
    ks <- Object_keys (lookup subLayers sublayer_key) ;;
    if Nat.eqb (length (filter (fun k => negb (k =? "to")) ks)) 0 then Ok false
    else Ok true.

(** The constant [allSubLayerVariables] of [createHyperSubLayers]; the
    argument [subLayers] is an object, given by its property list. *)
Definition allSubLayerVariables (subLayers : Props) : Result (list string) :=
  sublayer_keys <- Object_keys (JObject subLayers) ;;
  kept <- filter_r (registryFilter subLayers) sublayer_keys ;;
  Ok (map generateSubLayerVariableName kept).

(** The callback mapped over [Object.entries(subLayers)] (lines 148-185). *)
Definition entryRule (allSubLayerVariables : list string)
    (entry : string * JsValue) : Result JsValue :=
  let key := fst entry in
  let value := snd entry in
  is_direct <- js_in "to" value ;;
  if is_direct then
    Ok
      (JObject
         [ ("description", JString ("Hyper Key + " ++ key));
           ("manipulators",
             JArray
               [ JObject
                   (with_props (spread value)
                      [ ("type", JString "basic");
                        ("from",
                          JObject
                            [ ("key_code", JString key);
                              ("modifiers",
                                JObject
                                  [("optional", JArray [JString "any"])]) ]);
                        ("conditions",
                          JArray
                            (JObject
                               [ ("type", JString "variable_if");
                                 ("name", JString "hyper");
                                 ("value", JNumber 1) ]
                             :: map
                                  (fun subLayerVariable =>
                                     JObject
                                       [ ("type", JString "variable_if");
                                         ("name", JString subLayerVariable);
                                         ("value", JNumber 0) ])
                                  allSubLayerVariables)) ]) ]) ])
  else
    manipulators <- createHyperSubLayer key value allSubLayerVariables ;;
    Ok
      (JObject
         [ ("description",
             JString ("Hyper Key sublayer " ++ dquote ++ key ++ dquote));
           ("manipulators", JArray manipulators) ]).

Definition createHyperSubLayers (subLayers : Props) : Result (list JsValue) :=
  vars <- allSubLayerVariables subLayers ;;
  entries <- Object_entries (JObject subLayers) ;;
  map_r (entryRule vars) entries.

(** ** Vocabulary of the specification *)

(** A guard condition [{type: "variable_if", name, value}]. *)
Definition variable_if (name : string) (value : Z) : JsValue :=
  JObject
    [ ("type", JString "variable_if");
      ("name", JString name);
      ("value", JNumber value) ].

(** A [{set_variable: {name, value}}] effect. *)
Definition set_variable (name : string) (value : Z) : JsValue :=
  JObject
    [ ("set_variable",
        JObject [ ("name", JString name); ("value", JNumber value) ]) ].

(** A trigger [{key_code, modifiers: {optional: ["any"]}}]: the key, with
    any modifiers accepted. *)
Definition from_any (key : KeyCode) : JsValue :=
  JObject
    [ ("key_code", JString key);
      ("modifiers", JObject [ ("optional", JArray [JString "any"]) ]) ].

(** The tap-alone effect: the key with the four hyper modifiers. *)
Definition hyper_key (key : KeyCode) : JsValue :=
  JObject
    [ ("key_code", JString key);
      ("modifiers",
        JArray
          [ JString "left_shift";
            JString "left_command";
            JString "left_control";
            JString "left_option" ]) ].

(** The property names an emitted manipulator sets itself, whatever the
    spread object holds under them. *)
Definition own_field (p : string) : bool :=
  (p =? "type") || (p =? "from") || (p =? "conditions").

Definition elements (v : JsValue) : list JsValue :=
  match v with
  | JArray items => items
  | _ => []
  end.

(** The guard list of a manipulator and the manipulator list of a rule. *)
Definition conditions (manipulator : JsValue) : list JsValue :=
  elements (get manipulator "conditions").

Definition manipulators (rule : JsValue) : list JsValue :=
  elements (get rule "manipulators").

(** The key a rule triggers on: [from.key_code] of its first manipulator. *)
Definition trigger_key (rule : JsValue) : JsValue :=
  get (get (hd JUndefined (manipulators rule)) "from") "key_code".

Definition not_to (k : string) : bool := negb (k =? "to").

(** The two variants of a BindingEntry, told apart by the direct-action
    marker field ["to"] (an array, which the input type excludes, is
    classified like an object, as the code does). *)
Definition is_direct_action (v : JsValue) : bool :=
  match js_in "to" v with
  | Ok b => b
  | TypeError => false
  end.

Definition is_sublayer_map (v : JsValue) : bool :=
  match js_in "to" v with
  | Ok b => negb b
  | TypeError => false
  end.

(** Following the spec's words: a genuine sublayer is a SublayerMap with at
    least one command key. *)
Definition is_genuine_sublayer (v : JsValue) : bool :=
  is_sublayer_map v && negb (Nat.eqb (length (own_props v)) 0).

Definition genuine_sublayers (m : Props) : list KeyCode :=
  map fst (filter (fun p => is_genuine_sublayer (snd p)) m).

(** The keys the registry filter of the source lets through: the value is
    neither [undefined] nor a string and owns a key other than ["to"]. *)
Definition passes_filter (v : JsValue) : bool :=
  negb (typeof v =? "undefined")
  && negb (typeof v =? "string")
  && negb (Nat.eqb (length (filter not_to (map fst (own_props v)))) 0).

(** A degenerate entry, as the source detects it: an object that owns no
    key other than ["to"]. *)
Definition is_degenerate (v : JsValue) : bool :=
  (typeof v =? "object")
  && Nat.eqb (length (filter not_to (map fst (own_props v)))) 0.

Definition non_degenerate_entries (m : Props) : Props :=
  filter (fun p => negb (is_degenerate (snd p))) m.

(** A well-formed TopLevelMap: distinct keys, every value an object. *)
Definition is_binding_entry (v : JsValue) : bool := typeof v =? "object".

Definition well_formed_map (m : Props) : Prop :=
  wf_object m /\ forallb (fun p => is_binding_entry (snd p)) m = true.

(** ** Sample inputs *)

Definition shell (command : string) : JsValue :=
  JObject [ ("shell_command", JString command) ].

(** [{ o: { g: {to: [...]} }, m: {to: [...], description: "Open Mail"} }] *)
Definition chrome_mail_map : Props :=
  [ ("o", JObject [ ("g", JObject [ ("to", JArray [shell "open -a Chrome"]) ]) ]);
    ("m",
      JObject
        [ ("to", JArray [shell "open -a Mail"]);
          ("description", JString "Open Mail") ]) ].

(** The commands of a sublayer:
    [{ g: {to: [...], description: "Open Chrome"}, s: {to: [...]} }] *)
Definition open_commands : Props :=
  [ ("g",
      JObject
        [ ("to", JArray [shell "open -a Chrome"]);
          ("description", JString "Open Chrome") ]);
    ("s", JObject [ ("to", JArray [shell "open -a Spotify"]) ]) ].

(** [{ x: {} }] *)
Definition empty_sublayer_map : Props := [ ("x", JObject []) ].

(** [{ o: { g: {to: [...]} }, m: undefined }] *)
Definition undefined_entry_map : Props :=
  [ ("o", JObject [ ("g", JObject [ ("to", JArray [shell "open -a Chrome"]) ]) ]);
    ("m", JUndefined) ].

(** [{ o: { g: {to: [...]} }, p: { s: {to: [...]} }, m: {to: [...]},
       x: {} }] *)
Definition two_sublayers_map : Props :=
  [ ("o", JObject [ ("g", JObject [ ("to", JArray [shell "open -a Chrome"]) ]) ]);
    ("p", JObject [ ("s", JObject [ ("to", JArray [shell "open -a Spotify"]) ]) ]);
    ("m", JObject [ ("to", JArray [shell "open -a Mail"]) ]);
    ("x", JObject []) ].

(** [{ not_a_key: {to: [...]} }] *)
Definition unknown_key_map : Props :=
  [ ("not_a_key", JObject [ ("to", JArray [shell "open -a Mail"]) ]) ].

(** What the compiler returns on two of the samples. *)
Definition rules_of (m : Props) : list JsValue :=
  match createHyperSubLayers m with
  | Ok rules => rules
  | TypeError => []
  end.

Definition two_sublayers_rules : list JsValue :=
  Eval vm_compute in rules_of two_sublayers_map.

Definition empty_sublayer_rules : list JsValue :=
  Eval vm_compute in rules_of empty_sublayer_map.

(** A decision procedure for key distinctness, to check sample objects. *)
Fixpoint distinct (l : list string) : bool :=
  match l with
  | [] => true
  | k :: r => negb (existsb (String.eqb k) r) && distinct r
  end.

(** ** Statements of the specification, as worded, where the code departs
    from them *)

(** A manipulator mentions a variable when one of its guard conditions
    names it. *)
Definition mentions (name : string) (manipulator : JsValue) : Prop :=
  exists c, In c (conditions manipulator) /\ get c "name" = JString name.

(** The toggle of [key]: its immediate effect engages the key's variable. *)
Definition is_toggle_of (key : KeyCode) (manipulator : JsValue) : Prop :=
  get manipulator "to"
  = JArray [set_variable (generateSubLayerVariableName key) 1].

(** A degenerate entry contributes no variable, is mentioned by no other
    entry's guards, and is compiled via the direct path: the rule at its
    position carries the direct description and a single manipulator that
    is not a toggle. *)
Definition degenerate_compiled_direct (m : Props) : Prop :=
  forall i key value vars rules,
    nth_error m i = Some (key, value) ->
    is_degenerate value = true ->
    allSubLayerVariables m = Ok vars ->
    createHyperSubLayers m = Ok rules ->
    ~ In (generateSubLayerVariableName key) vars /\
    (forall j rule manipulator,
        j <> i ->
        nth_error rules j = Some rule ->
        In manipulator (manipulators rule) ->
        ~ mentions (generateSubLayerVariableName key) manipulator) /\
    exists rule manipulator,
      nth_error rules i = Some rule /\
      get rule "description" = JString ("Hyper Key + " ++ key) /\
      manipulators rule = [manipulator] /\
      ~ is_toggle_of key manipulator.

(** The number of rules is the number of non-degenerate entries. *)
Definition rules_count_non_degenerate (m : Props) : Prop :=
  well_formed_map m ->
  exists rules,
    createHyperSubLayers m = Ok rules /\
    length rules = length (non_degenerate_entries m).

(** A key outside the recognised set makes compilation fail. *)
Definition rejects_unrecognized (recognized : KeyCode -> bool) (m : Props)
    : Prop :=
  (exists key, In key (map fst m) /\ recognized key = false) ->
  createHyperSubLayers m = TypeError.

(** ** String and array built-ins used by the helper functions

    A string is the sequence of its code units, each below 256; on such
    strings the white space of [trim] is TAB, LF, VT, FF, CR, SPACE and
    NO-BREAK SPACE. *)

Module JsText.

Definition newline : ascii := "010"%char.

Definition is_whitespace (c : ascii) : bool :=
  let n := nat_of_ascii c in
  Nat.eqb n 9 || Nat.eqb n 10 || Nat.eqb n 11 || Nat.eqb n 12
  || Nat.eqb n 13 || Nat.eqb n 32 || Nat.eqb n 160.

Fixpoint trimStart (s : string) : string :=
  match s with
  | EmptyString => EmptyString
  | String c r => if is_whitespace c then trimStart r else s
  end.

Fixpoint trimEnd (s : string) : string :=
  match s with
  | EmptyString => EmptyString
  | String c r =>
      match trimEnd r with
      | EmptyString =>
          if is_whitespace c then EmptyString else String c EmptyString
      | r' => String c r'
      end
  end.

(** [s.trim()] *)
Definition trim (s : string) : string := trimEnd (trimStart s).

(** [s.split("\n")]: the pieces between line feeds; the empty string
    gives one empty piece. *)
Fixpoint split_newline (s : string) : list string :=
  match s with
  | EmptyString => [EmptyString]
  | String c r =>
      if Ascii.eqb c newline then EmptyString :: split_newline r
      else
        match split_newline r with
        | piece :: pieces => String c piece :: pieces
        | [] => [String c EmptyString]
        end
  end.

(** [l.join(sep)] on an array of strings. *)
Fixpoint join (sep : string) (l : list string) : string :=
  match l with
  | [] => EmptyString
  | [x] => x
  | x :: r => x ++ sep ++ join sep r
  end.

(** [l.includes(x)] on an array of strings. *)
Definition includes (x : string) (l : list string) : bool :=
  existsb (String.eqb x) l.

(** [s.substring(1)] *)
Definition substring_from_1 (s : string) : string :=
  match s with
  | EmptyString => EmptyString
  | String _ r => r
  end.

(** An array index: the canonical decimal form of an integer below
    [2^32 - 1].  Such keys are enumerated first, in ascending order. *)
Definition array_index (k : string) : option N :=
  match NilEmpty.uint_of_string k with
  | Some u =>
      let n := N.of_uint u in
      if (NilEmpty.string_of_uint (N.to_uint n) =? k) && (n <? 4294967295)%N
      then Some n
      else None
  | None => None
  end.

Fixpoint insert_index (n : N) (k : string) (v : JsValue) (o : Props) : Props :=
  match o with
  | [] => [(k, v)]
  | (k', v') :: r =>
      match array_index k' with
      | Some n' =>
          if (n' <? n)%N then (k', v') :: insert_index n k v r
          else (k, v) :: o
      | None => (k, v) :: o
      end
  end.

(** [o[k] = v] on a plain object: an existing key keeps its place; a new
    array index goes among the indices, in order; any other new key goes
    last.  Assigning to ["__proto__"] creates no own property: it sets the
    prototype, which is not part of the model. *)
Definition assign (k : string) (v : JsValue) (o : Props) : Props :=
  if k =? "__proto__" then o
  else if existsb (String.eqb k) (map fst o) then set_prop k v o
  else
    match array_index k with
    | Some n => insert_index n k v o
    | None => (o ++ [(k, v)])%list
    end.

End JsText.

(** ** The helper functions of [src/utils.ts] *)

Module Utils.
Import JsText.

(** [open(...what)] *)
Definition open (what : list string) : JsValue :=
  JObject
    [ ("to",
        JArray
          (map (fun w => JObject [ ("shell_command", JString ("open " ++ w)) ])
             what));
      ("description", JString ("Open " ++ join " & " what)) ].

(** The lines gathered by the [reduce] of [shell]; interpolated values are
    strings. *)
Definition shell_lines (strings values : list string) : list string :=
  fold_left
    (fun (acc : list string) (str_i : string * nat) =>
       let str := fst str_i in
       let i := snd str_i in
       let value :=
         if Nat.ltb i (length values) then nth i values EmptyString
         else EmptyString in
       let lines :=
         filter (fun line => negb (trim line =? EmptyString))
           (split_newline (str ++ value)) in
       (acc ++ lines)%list)
    (combine strings (seq 0 (length strings)))
    [].

(** The template tag [shell(strings, ...values)]. *)
Definition shell (strings values : list string) : JsValue :=
  let commands := shell_lines strings values in
  JObject
    [ ("to",
        JArray
          (map
             (fun command =>
                JObject [ ("shell_command", JString (trim command)) ])
             commands));
      ("description", JString (join " && " commands)) ].

Definition shell_command (commands : list string) : JsValue :=
  JObject
    [ ("to",
        JArray
          (map
             (fun command =>
                JObject [ ("shell_command", JString (trim command)) ])
             commands));
      ("description", JString (join " && " commands)) ].

(** The modifier list [mods] of [shortcut] after its four [if]s. *)
Definition shortcut_mods (modifiers : list string) : list string :=
  let mods := [] in
  let mods :=
    if includes "cmd" modifiers || includes "command" modifiers
    then (mods ++ ["command down"])%list else mods in
  let mods :=
    if includes "control" modifiers || includes "ctrl" modifiers
    then (mods ++ ["control down"])%list else mods in
  let mods :=
    if includes "alt" modifiers || includes "option" modifiers
    then (mods ++ ["option down"])%list else mods in
  let mods :=
    if includes "shift" modifiers
    then (mods ++ ["shift down"])%list else mods in
  mods.

(** The variable [keystroke] of [shortcut] after its twenty [if]s. *)
Definition shortcut_keystroke (key : string) : string :=
  let keystroke := "keystroke " ++ dquote ++ key ++ dquote in
  let keystroke := if key =? "f1" then " key code 122" else keystroke in
  let keystroke := if key =? "f2" then " key code 120" else keystroke in
  let keystroke := if key =? "f3" then " key code 99" else keystroke in
  let keystroke := if key =? "f4" then " key code 118" else keystroke in
  let keystroke := if key =? "f5" then " key code 96" else keystroke in
  let keystroke := if key =? "f6" then " key code 97" else keystroke in
  let keystroke := if key =? "f7" then " key code 98" else keystroke in
  let keystroke := if key =? "f8" then " key code 100" else keystroke in
  let keystroke := if key =? "f9" then " key code 101" else keystroke in
  let keystroke := if key =? "f10" then " key code 109" else keystroke in
  let keystroke := if key =? "f11" then " key code 103" else keystroke in
  let keystroke := if key =? "f12" then " key code 111" else keystroke in
  let keystroke := if key =? "f13" then " key code 105" else keystroke in
  let keystroke := if key =? "f14" then " key code 107" else keystroke in
  let keystroke := if key =? "f15" then " key code 113" else keystroke in
  let keystroke := if key =? "f16" then " key code 106" else keystroke in
  let keystroke := if key =? "f17" then " key code 64" else keystroke in
  let keystroke := if key =? "f18" then " key code 79" else keystroke in
  let keystroke := if key =? "f19" then " key code 80" else keystroke in
  let keystroke := if key =? "f20" then " key code 90" else keystroke in
  keystroke.

(** The one command [shortcut] hands to [shell_command]. *)
Definition shortcut_script (key : string) (modifiers : list string) : string :=
  let mods := shortcut_mods modifiers in
  let modstring := EmptyString in
  let modstring :=
    if negb (Nat.eqb (length mods) 0)
    then " using {" ++ join ", " mods ++ "}" else modstring in
  let keystroke := shortcut_keystroke key in
  "osascript -e 'tell application " ++ dquote ++ "System Events" ++ dquote
  ++ " to " ++ keystroke ++ modstring ++ "'".

Definition shortcut (key : string) (modifiers : list string) : JsValue :=
  shell_command [shortcut_script key modifiers].

(** [rectangle(name)] *)
Definition rectangle (name : string) : JsValue :=
  JObject
    [ ("to",
        JArray
          [ JObject
              [ ("shell_command",
                  JString ("open -g rectangle://execute-action?name=" ++ name))
              ] ]);
      ("description", JString ("Window: " ++ name)) ].

(** [app(name)] *)
Definition app (name : string) : JsValue :=
  open ["-a '" ++ name ++ ".app'"].

(** [basicRemap(key_code, modifiers?)] *)
Definition basicRemap (key_code : KeyCode) (modifiers : option (list string))
    : JsValue :=
  match modifiers with
  | Some modifiers =>
      JObject
        [ ("to",
            JArray
              [ JObject
                  [ ("key_code", JString key_code);
                    ("modifiers", JArray (map JString modifiers)) ] ]) ]
  | None =>
      JObject [ ("to", JArray [ JObject [ ("key_code", JString key_code) ] ]) ]
  end.

(** [standardHyperkey(key_code)] *)
Definition standardHyperkey (key_code : KeyCode) : JsValue :=
  JObject
    [ ("to",
        JArray
          [ JObject
              [ ("key_code", JString key_code);
                ("modifiers",
                  JArray
                    [ JString "left_shift";
                      JString "left_command";
                      JString "left_control";
                      JString "left_option" ]) ] ]) ].

(** The object a [forEach] over [key_codes] fills from [{}] with
    [fallbacks[key_code] = standardHyperkey(key_code)]. *)
Definition fill_fallbacks (key_codes : list KeyCode) : Props :=
  fold_left
    (fun fallbacks key_code =>
       assign key_code (standardHyperkey key_code) fallbacks)
    key_codes
    [].

Definition fallback_key_codes : list KeyCode :=
  [ "1"; "2"; "3"; "4"; "5"; "6"; "7"; "8"; "9"; "0"; "hyphen";
    "q"; "w"; "e"; "r"; "t"; "y"; "u"; "i"; "o"; "p";
    "a"; "s"; "d"; "f"; "h"; "g"; "j"; "k"; "l";
    "z"; "x"; "c"; "v"; "b"; "n"; "m";
    "f1"; "f2"; "f3"; "f4"; "f5"; "f6"; "f7"; "f8"; "f9"; "f10"; "f11"; "f12";
    "f13"; "f14"; "f15"; "f16"; "f17"; "f18"; "f19"; "f20"; "f21"; "f22";
    "f23"; "f24";
    "left_arrow"; "up_arrow"; "right_arrow"; "down_arrow";
    "home"; "end"; "page_up"; "page_down";
    "return_or_enter"; "escape"; "delete_or_backspace"; "delete_forward";
    "tab"; "spacebar"; "hyphen"; "equal_sign"; "open_bracket";
    "close_bracket"; "backslash"; "non_us_pound"; "semicolon"; "quote";
    "grave_accent_and_tilde"; "comma"; "period"; "slash";
    "non_us_backslash" ].

Definition fallbacks : Props := fill_fallbacks fallback_key_codes.

(** [encodeURIComponent] and [JSON.stringify] belong to the host; the
    helpers below are defined over whatever they compute. *)
Section Host.
Variable encodeURIComponent : string -> string.
Variable JSON_stringify : JsValue -> string.

Definition raycast_notification_command (notification_text : string) : string :=
  "open -g 'raycast://extensions/maxnyby/raycast-notification/index?launchType=background&arguments="
  ++ encodeURIComponent
       (JSON_stringify
          (JObject
             [ ("title", JString notification_text);
               ("type", JString "success") ]))
  ++ "'".

(** [message || fallback]: [undefined] and the empty string are falsy. *)
Definition or_default (message : option string) (fallback : string) : string :=
  match message with
  | Some m => if m =? EmptyString then fallback else m
  | None => fallback
  end.

Definition switch_karabiner_profile (name : string) (message : option string)
    : JsValue :=
  let message := or_default message ("Switched karabiner profile: " ++ name) in
  shell_command
    [ "'/Library/Application Support/org.pqrs/Karabiner-Elements/bin/karabiner_cli' --select-profile '"
      ++ name ++ "' && " ++ raycast_notification_command message ].

Definition app_with_notification (appname : string) : JsValue :=
  let grep_regex :=
    "[" ++ substring 0 1 appname ++ "]" ++ substring_from_1 appname ++ "$" in
  let check_command := "ps axo pid,command | grep '" ++ grep_regex ++ "'" in
  let notification_command :=
    raycast_notification_command ("Opening " ++ appname) in
  JObject
    [ ("to",
        JArray
          [ JObject
              [ ("shell_command",
                  JString
                    ("(" ++ check_command ++ " || " ++ notification_command
                     ++ ") && open -a '" ++ appname ++ "'")) ] ]);
      ("description", JString ("Open " ++ appname)) ].

End Host.

End Utils.

(** ** Vocabulary for the helper functions *)

(** The shell commands of a LayerCommand: the elements of its [to]. *)
Definition to_list (layer_command : JsValue) : list JsValue :=
  elements (get layer_command "to").

Definition starts_with_whitespace (s : string) : bool :=
  match s with
  | EmptyString => false
  | String c _ => JsText.is_whitespace c
  end.

Fixpoint ends_with_whitespace (s : string) : bool :=
  match s with
  | EmptyString => false
  | String c EmptyString => JsText.is_whitespace c
  | String _ r => ends_with_whitespace r
  end.

Fixpoint all_whitespace (s : string) : bool :=
  match s with
  | EmptyString => true
  | String c r => JsText.is_whitespace c && all_whitespace r
  end.

Fixpoint contains_newline (s : string) : bool :=
  match s with
  | EmptyString => false
  | String c r => Ascii.eqb c JsText.newline || contains_newline r
  end.

(** The keys [shortcut] sends by key code, and the modifier names it
    looks for. *)
Definition function_keys : list string :=
  [ "f1"; "f2"; "f3"; "f4"; "f5"; "f6"; "f7"; "f8"; "f9"; "f10";
    "f11"; "f12"; "f13"; "f14"; "f15"; "f16"; "f17"; "f18"; "f19"; "f20" ].

Definition modifier_names : list string :=
  [ "cmd"; "command"; "control"; "ctrl"; "alt"; "option"; "shift" ].

(** ** JavaScript fragment: basic facts *)

Section ResultFacts.
Context {A B : Type}.

Lemma map_r_length (f : A -> Result B) (l : list A) (ys : list B) :
  map_r f l = Ok ys -> length ys = length l.
Proof.
  revert ys; induction l as [|x r IH]; simpl; intros ys H.
  - now inversion H.
  - destruct (f x) as [y|]; simpl in H; [|discriminate].
    destruct (map_r f r) as [ys'|]; simpl in H; [|discriminate].
    inversion H; subst; simpl; f_equal; now apply IH.
Qed.

Lemma map_r_nth (f : A -> Result B) (l : list A) (ys : list B) i x :
  map_r f l = Ok ys -> nth_error l i = Some x ->
  exists y, nth_error ys i = Some y /\ f x = Ok y.
Proof.
  revert ys i; induction l as [|a r IH]; simpl; intros ys i H Hi.
  - destruct i; discriminate.
  - destruct (f a) as [y|] eqn:Ha; simpl in H; [|discriminate].
    destruct (map_r f r) as [ys'|]; simpl in H; [|discriminate].
    inversion H; subst; clear H.
    destruct i as [|i]; simpl in *.
    + inversion Hi; subst; eauto.
    + eapply IH; eauto.
Qed.

Lemma map_r_In (f : A -> Result B) (l : list A) (ys : list B) y :
  map_r f l = Ok ys -> In y ys -> exists x, In x l /\ f x = Ok y.
Proof.
  revert ys; induction l as [|a r IH]; simpl; intros ys H Hy.
  - inversion H; subst; destruct Hy.
  - destruct (f a) as [y'|] eqn:Ha; simpl in H; [|discriminate].
    destruct (map_r f r) as [ys'|]; simpl in H; [|discriminate].
    inversion H; subst; clear H.
    destruct Hy as [->|Hy]; [eauto|].
    destruct (IH _ eq_refl Hy) as (x & Hx & Hfx); eauto.
Qed.

Lemma map_r_total (f : A -> Result B) (l : list A) :
  (forall x, In x l -> exists y, f x = Ok y) ->
  exists ys, map_r f l = Ok ys.
Proof.
  induction l as [|a r IH]; simpl; intros H; [eauto|].
  destruct (H a (or_introl eq_refl)) as [y ->]; simpl.
  destruct IH as [ys ->]; [intros; apply H; now right|]; simpl; eauto.
Qed.

Lemma filter_r_pure (p : A -> bool) (f : A -> Result bool) (l : list A) :
  (forall x, In x l -> f x = Ok (p x)) ->
  filter_r f l = Ok (filter p l).
Proof.
  induction l as [|a r IH]; simpl; intros H; [reflexivity|].
  rewrite (H a (or_introl eq_refl)); simpl.
  rewrite IH by (intros; apply H; now right); reflexivity.
Qed.
End ResultFacts.

Section PropertyFacts.

Lemma lookup_set_prop (k k' : string) (v : JsValue) (o : Props) :
  lookup (set_prop k v o) k' = if k =? k' then v else lookup o k'.
Proof.
  unfold lookup; induction o as [|[a b] r IH]; simpl.
  - destruct (k =? k'); reflexivity.
  - destruct (a =? k) eqn:Eak; simpl.
    + apply String.eqb_eq in Eak; subst a.
      destruct (k =? k'); reflexivity.
    + destruct (a =? k') eqn:Eak'.
      * apply String.eqb_eq in Eak'; subst a.
        rewrite String.eqb_sym, Eak; reflexivity.
      * exact IH.
Qed.

(** An object literal [{...base, type, from, conditions}]: the three
    named fields read back as written and every other property reads as
    in [base]. *)
Lemma lookup_with_three (base : Props) (t f c : JsValue) (k : string) :
  lookup (with_props base [("type", t); ("from", f); ("conditions", c)]) k
  = if k =? "conditions" then c
    else if k =? "from" then f
    else if k =? "type" then t
    else lookup base k.
Proof.
  unfold with_props; simpl.
  rewrite !lookup_set_prop.
  rewrite (String.eqb_sym "conditions"), (String.eqb_sym "from"),
    (String.eqb_sym "type").
  reflexivity.
Qed.

Lemma lookup_In (o : Props) (k : string) (v : JsValue) :
  wf_object o -> In (k, v) o -> lookup o k = v.
Proof.
  unfold wf_object, lookup; induction o as [|[a b] r IH]; simpl; intros Hnd Hin.
  - destruct Hin.
  - inversion Hnd as [|? ? Hna Hnd']; subst.
    destruct Hin as [Heq|Hin].
    + inversion Heq; subst; rewrite String.eqb_refl; reflexivity.
    + destruct (a =? k) eqn:Eak.
      * apply String.eqb_eq in Eak; subst a.
        exfalso; apply Hna.
        change k with (fst (k, v)); now apply in_map.
      * now apply IH.
Qed.

Lemma existsb_eqb_In (k : string) (l : list string) :
  existsb (String.eqb k) l = true <-> In k l.
Proof.
  rewrite existsb_exists; split.
  - intros (x & Hx & E); apply String.eqb_eq in E; now subst.
  - intros H; exists k; split; [assumption|apply String.eqb_refl].
Qed.

Lemma typeof_object_in (v : JsValue) :
  typeof v = "object" -> exists b, js_in "to" v = Ok b.
Proof. destruct v; simpl; intros H; try discriminate; eauto. Qed.

Lemma js_in_object (v : JsValue) (b : bool) :
  js_in "to" v = Ok b ->
  typeof v = "object" /\ existsb (String.eqb "to") (map fst (own_props v)) = b.
Proof.
  destruct v; simpl; intros H; try discriminate; inversion H; auto.
Qed.

Lemma Object_keys_ok (v : JsValue) (ks : list string) :
  Object_keys v = Ok ks -> ks = map fst (own_props v).
Proof. destruct v; simpl; intros H; try discriminate; now inversion H. Qed.

Lemma js_in_keys (v : JsValue) (b : bool) :
  js_in "to" v = Ok b -> Object_keys v = Ok (map fst (own_props v)).
Proof. destruct v; simpl; intros H; try discriminate; reflexivity. Qed.

(** Without a ["to"] key every own key counts as a command key. *)
Lemma filter_not_to_id (l : list string) :
  existsb (String.eqb "to") l = false -> filter not_to l = l.
Proof.
  induction l as [|a r IH]; intros H; [reflexivity|].
  change (("to" =? a) || existsb (String.eqb "to") r = false) in H.
  apply orb_false_iff in H as [Ha Hr].
  change (filter not_to (a :: r))
    with (if not_to a then a :: filter not_to r else filter not_to r).
  unfold not_to at 1; rewrite String.eqb_sym, Ha, (IH Hr); reflexivity.
Qed.

End PropertyFacts.

(** ** Variable names *)

Lemma append_inj_l (p a b : string) : p ++ a = p ++ b -> a = b.
Proof.
  induction p as [|c p IH]; simpl; intros H; [assumption|].
  inversion H; auto.
Qed.

Lemma generateSubLayerVariableName_inj (a b : KeyCode) :
  generateSubLayerVariableName a = generateSubLayerVariableName b -> a = b.
Proof. apply append_inj_l. Qed.

Lemma generateSubLayerVariableName_not_hyper (key : KeyCode) :
  generateSubLayerVariableName key <> "hyper".
Proof. unfold generateSubLayerVariableName; simpl; discriminate. Qed.

(** ** The registry *)

Lemma registryFilter_passes (m : Props) (key : KeyCode) :
  registryFilter m key = Ok (passes_filter (lookup m key)).
Proof.
  unfold registryFilter, passes_filter.
  destruct (lookup m key) as [|s|n|items|props]; simpl; try reflexivity;
    fold not_to;
    match goal with
    | |- context [Nat.eqb ?n 0] => destruct (Nat.eqb n 0); reflexivity
    end.
Qed.

(** No value of the model makes the registry filter throw. *)
Lemma allSubLayerVariables_eq (m : Props) :
  allSubLayerVariables m
  = Ok (map generateSubLayerVariableName
          (filter (fun key => passes_filter (lookup m key)) (map fst m))).
Proof.
  unfold allSubLayerVariables; cbn [Object_keys own_props bind].
  rewrite (filter_r_pure (fun key => passes_filter (lookup m key)))
    by (intros; apply registryFilter_passes).
  reflexivity.
Qed.

Lemma filter_keys_wf (m l : Props) (p : JsValue -> bool) :
  wf_object m -> incl l m ->
  filter (fun key => p (lookup m key)) (map fst l)
  = map fst (filter (fun e => p (snd e)) l).
Proof.
  intros Hwf; induction l as [|[k v] r IH]; simpl; intros Hincl; [reflexivity|].
  rewrite (lookup_In m k v Hwf) by (apply Hincl; now left).
  rewrite IH by (intros x Hx; apply Hincl; now right).
  destruct (p v); reflexivity.
Qed.

(** On a well-formed object the registry lists, in key order, the
    variables of the entries whose value passes the filter. *)
Lemma allSubLayerVariables_wf (m : Props) :
  wf_object m ->
  allSubLayerVariables m
  = Ok (map generateSubLayerVariableName
          (map fst (filter (fun e => passes_filter (snd e)) m))).
Proof.
  intros Hwf; rewrite allSubLayerVariables_eq.
  rewrite (filter_keys_wf m m passes_filter Hwf (incl_refl m)); reflexivity.
Qed.

Lemma passes_filter_object (v : JsValue) :
  typeof v = "object" ->
  passes_filter v
  = negb (Nat.eqb (length (filter not_to (map fst (own_props v)))) 0).
Proof. unfold passes_filter; intros ->; reflexivity. Qed.

(** What passes the filter: the genuine sublayers, and the direct actions
    that own a key besides ["to"] (a description, for one). *)
Lemma passes_filter_cases (v : JsValue) :
  passes_filter v
  = is_genuine_sublayer v
    || (is_direct_action v
        && negb (Nat.eqb (length (filter not_to (map fst (own_props v)))) 0)).
Proof.
  destruct (js_in "to" v) as [b|] eqn:E.
  - destruct (js_in_object v b E) as [Hobj Hb].
    rewrite (passes_filter_object v Hobj).
    unfold is_genuine_sublayer, is_sublayer_map, is_direct_action; rewrite E.
    destruct b; simpl; [reflexivity|].
    rewrite (filter_not_to_id _ Hb), length_map, orb_false_r; reflexivity.
  - unfold is_genuine_sublayer, is_sublayer_map, is_direct_action; rewrite E.
    destruct v; try discriminate; reflexivity.
Qed.

Lemma degenerate_not_passes (v : JsValue) :
  is_degenerate v = true -> passes_filter v = false.
Proof.
  unfold is_degenerate, passes_filter; intros H.
  apply andb_true_iff in H as [_ H]; rewrite H; simpl.
  now rewrite andb_false_r.
Qed.

(** ** The sublayer compiler *)

Lemma get_spread_object (base : Props) (t f c : JsValue) (p : string) :
  get (JObject (with_props base [("type", t); ("from", f); ("conditions", c)])) p
  = if p =? "conditions" then c
    else if p =? "from" then f
    else if p =? "type" then t
    else lookup base p.
Proof. unfold get; simpl own_props; apply lookup_with_three. Qed.

Lemma get_spread_other (base : Props) (t f c : JsValue) (p : string) :
  own_field p = false ->
  get (JObject (with_props base [("type", t); ("from", f); ("conditions", c)])) p
  = lookup base p.
Proof.
  unfold own_field; intros H.
  apply orb_false_iff in H as [H Hc]; apply orb_false_iff in H as [Ht Hf].
  rewrite get_spread_object, Hc, Hf, Ht; reflexivity.
Qed.

(** The list [createHyperSubLayer] returns: the toggle, then one command
    manipulator per own key of [commands], in key order. *)
Lemma createHyperSubLayer_shape (sublayer_key : KeyCode) (commands : JsValue)
    (vars : list string) (ks : list string) :
  Object_keys commands = Ok ks ->
  exists toggle cmds,
    createHyperSubLayer sublayer_key commands vars = Ok (toggle :: cmds) /\
    (get toggle "description"
       = JString ("Toggle Hyper sublayer " ++ sublayer_key) /\
     get toggle "from" = from_any sublayer_key /\
     get toggle "to_if_alone" = JArray [hyper_key sublayer_key] /\
     get toggle "to_after_key_up"
       = JArray [set_variable (generateSubLayerVariableName sublayer_key) 0] /\
     get toggle "to"
       = JArray [set_variable (generateSubLayerVariableName sublayer_key) 1] /\
     conditions toggle
       = (map (fun v => variable_if v 0)
            (filter
               (fun v => negb (v =? generateSubLayerVariableName sublayer_key))
               vars)
          ++ [variable_if "hyper" 1])%list) /\
    length cmds = length ks /\
    forall i command_key,
      nth_error ks i = Some command_key ->
      exists m,
        nth_error cmds i = Some m /\
        get m "type" = JString "basic" /\
        get m "from" = from_any command_key /\
        conditions m
          = [variable_if (generateSubLayerVariableName sublayer_key) 1] /\
        forall p, own_field p = false ->
                  get m p = get (get commands command_key) p.
Proof.
  intros Hks; unfold createHyperSubLayer; rewrite Hks.
  cbv beta iota delta [bind].
  do 2 eexists; split; [reflexivity|].
  split; [repeat split; reflexivity|].
  split; [apply length_map|].
  intros i command_key Hi.
  eexists; split; [apply map_nth_error; exact Hi|].
  unfold conditions; rewrite !get_spread_object.
  repeat split.
  intros p Hp; now rewrite get_spread_other.
Qed.

Lemma createHyperSubLayer_commands (sublayer_key : KeyCode)
    (commands : JsValue) (vars : list string) (ms : list JsValue) (m : JsValue) :
  createHyperSubLayer sublayer_key commands vars = Ok ms ->
  In m (tl ms) ->
  own_props commands <> [] /\
  conditions m = [variable_if (generateSubLayerVariableName sublayer_key) 1].
Proof.
  intros H Hm.
  destruct (Object_keys commands) as [ks|] eqn:Hks;
    [|unfold createHyperSubLayer in H; rewrite Hks in H; discriminate].
  destruct (createHyperSubLayer_shape sublayer_key commands vars ks Hks)
    as (toggle & cmds & E & _ & Hlen & Hcmd).
  rewrite E in H; inversion H; subst ms; simpl in Hm.
  apply In_nth_error in Hm as [i Hi].
  assert (Hlt : i < length ks).
  { rewrite <- Hlen; apply nth_error_Some; congruence. }
  destruct (nth_error ks i) as [k|] eqn:Hk;
    [|apply nth_error_None in Hk; lia].
  destruct (Hcmd i k Hk) as (m' & Hm' & _ & _ & Hc & _).
  rewrite Hi in Hm'; inversion Hm'; subst m'.
  split; [|exact Hc].
  intros Hnil.
  rewrite (Object_keys_ok commands ks Hks), Hnil in Hk.
  destruct i; discriminate.
Qed.

(** ** The top-level compiler, entry by entry *)

Lemma entryRule_direct (vars : list string) (key : KeyCode) (value : JsValue) :
  js_in "to" value = Ok true ->
  exists manipulator,
    entryRule vars (key, value)
    = Ok (JObject [ ("description", JString ("Hyper Key + " ++ key));
                    ("manipulators", JArray [manipulator]) ]) /\
    get manipulator "type" = JString "basic" /\
    get manipulator "from" = from_any key /\
    conditions manipulator
      = variable_if "hyper" 1 :: map (fun v => variable_if v 0) vars /\
    forall p, own_field p = false -> get manipulator p = get value p.
Proof.
  intros Hin; unfold entryRule; cbn [fst snd]; rewrite Hin.
  cbv beta iota delta [bind].
  eexists; split; [reflexivity|].
  unfold conditions; rewrite !get_spread_object.
  repeat split.
  intros p Hp; now rewrite get_spread_other.
Qed.

Lemma entryRule_sublayer (vars : list string) (key : KeyCode) (value : JsValue) :
  js_in "to" value = Ok false ->
  exists ms,
    createHyperSubLayer key value vars = Ok ms /\
    entryRule vars (key, value)
    = Ok (JObject
            [ ("description",
                JString ("Hyper Key sublayer " ++ dquote ++ key ++ dquote));
              ("manipulators", JArray ms) ]).
Proof.
  intros Hin; unfold entryRule; cbn [fst snd]; rewrite Hin.
  cbv beta iota delta [bind].
  destruct (createHyperSubLayer_shape key value vars _ (js_in_keys value _ Hin))
    as (toggle & cmds & E & _).
  rewrite E; eauto.
Qed.

Lemma entryRule_throws (vars : list string) (key : KeyCode) (value : JsValue) :
  js_in "to" value = TypeError -> entryRule vars (key, value) = TypeError.
Proof. intros Hin; unfold entryRule; cbn [fst snd]; rewrite Hin; reflexivity. Qed.

Lemma entryRule_total (vars : list string) (key : KeyCode) (value : JsValue) :
  typeof value = "object" -> exists rule, entryRule vars (key, value) = Ok rule.
Proof.
  intros Hobj; destruct (typeof_object_in value Hobj) as [[|] Hin].
  - destruct (entryRule_direct vars key value Hin) as (m & E & _); eauto.
  - destruct (entryRule_sublayer vars key value Hin) as (ms & _ & E); eauto.
Qed.

(** ** Properties of [createHyperSubLayer] *)

(** C5: every command manipulator of a sublayer (the manipulators after the
    toggle, one per command key, in key order) is guarded by exactly the one
    condition "own variable == 1", whatever the registry holds, and passes
    the author's Action through: its [to] and [description], and indeed
    every property other than the three the manipulator sets itself, read
    as in [commands[command_key]]. *)
Theorem C5_command_manipulator_guard_and_effect :
  forall (sublayer_key : KeyCode) (commands : Props) (vars : list string),
  exists toggle cmds,
    createHyperSubLayer sublayer_key (JObject commands) vars
    = Ok (toggle :: cmds) /\
    length cmds = length commands /\
    forall i command_key,
      nth_error (map fst commands) i = Some command_key ->
      exists m,
        nth_error cmds i = Some m /\
        get m "from" = from_any command_key /\
        conditions m
          = [variable_if (generateSubLayerVariableName sublayer_key) 1] /\
        length (conditions m) = 1 /\
        get m "to" = get (lookup commands command_key) "to" /\
        get m "description" = get (lookup commands command_key) "description" /\
        forall p, own_field p = false ->
                  get m p = get (lookup commands command_key) p.
Proof.
  intros sublayer_key commands vars.
  destruct (createHyperSubLayer_shape sublayer_key (JObject commands) vars
              (map fst commands) eq_refl)
    as (toggle & cmds & E & _ & Hlen & Hcmd).
  exists toggle, cmds; split; [exact E|].
  split; [now rewrite Hlen, length_map|].
  intros i command_key Hi.
  destruct (Hcmd i command_key Hi) as (m & Hm & _ & Hfrom & Hc & Hpass).
  exists m; repeat split; try assumption.
  - now rewrite Hc.
  - apply Hpass; reflexivity.
  - apply Hpass; reflexivity.
Qed.

Lemma C5_command_manipulator_guard_and_effect_witness :
  exists toggle cmds,
    createHyperSubLayer "o" (JObject open_commands)
      ["hyper_sublayer_o"; "hyper_sublayer_p"]
    = Ok (toggle :: cmds) /\
    exists m,
      nth_error cmds 0 = Some m /\
      get m "from" = from_any "g" /\
      conditions m = [variable_if "hyper_sublayer_o" 1] /\
      get m "to" = JArray [shell "open -a Chrome"] /\
      get m "description" = JString "Open Chrome".
Proof.
  destruct (C5_command_manipulator_guard_and_effect "o" open_commands
              ["hyper_sublayer_o"; "hyper_sublayer_p"])
    as (toggle & cmds & E & _ & H).
  exists toggle, cmds; split; [exact E|].
  destruct (H 0 "g" eq_refl) as (m & Hm & Hf & Hc & _ & Hto & Hd & _).
  exists m; repeat split; assumption.
Defined.

(** C6: for every sublayer key and SublayerMap, [createHyperSubLayer]
    returns a list of [1 + |commands|] manipulators headed by the toggle;
    the toggle's [to] sets the sublayer's variable to 1, its
    [to_after_key_up] sets it back to 0, and its [to_if_alone] emits the
    sublayer key with left_shift, left_command, left_control and
    left_option. *)
Theorem C6_manipulator_list_and_toggle_effects :
  forall (sublayer_key : KeyCode) (commands : Props) (vars : list string),
  exists toggle cmds,
    createHyperSubLayer sublayer_key (JObject commands) vars
    = Ok (toggle :: cmds) /\
    length (toggle :: cmds) = 1 + length commands /\
    get toggle "from" = from_any sublayer_key /\
    get toggle "to"
      = JArray [set_variable (generateSubLayerVariableName sublayer_key) 1] /\
    get toggle "to_after_key_up"
      = JArray [set_variable (generateSubLayerVariableName sublayer_key) 0] /\
    get toggle "to_if_alone"
      = JArray
          [ JObject
              [ ("key_code", JString sublayer_key);
                ("modifiers",
                  JArray
                    [ JString "left_shift";
                      JString "left_command";
                      JString "left_control";
                      JString "left_option" ]) ] ].
Proof.
  intros sublayer_key commands vars.
  destruct (createHyperSubLayer_shape sublayer_key (JObject commands) vars
              (map fst commands) eq_refl)
    as (toggle & cmds & E & (_ & Hfrom & Halone & Hup & Hto & _) & Hlen & _).
  exists toggle, cmds; repeat split; try assumption.
  simpl; now rewrite Hlen, length_map.
Qed.

(** ** Guards emitted by the top-level compiler *)

Lemma distinct_NoDup (l : list string) : distinct l = true -> NoDup l.
Proof.
  induction l as [|k r IH]; intros H; [constructor|].
  change (negb (existsb (String.eqb k) r) && distinct r = true) in H.
  apply andb_true_iff in H as [Hk Hr]; constructor; [|now apply IH].
  intros Hin; apply existsb_eqb_In in Hin; rewrite Hin in Hk; discriminate.
Qed.

Lemma well_formed_map_check (m : Props) :
  distinct (map fst m) && forallb (fun p => is_binding_entry (snd p)) m = true ->
  well_formed_map m.
Proof.
  intros H; apply andb_true_iff in H as [Hd Hobj]; split; [|exact Hobj].
  now apply distinct_NoDup.
Qed.

Lemma wf_object_unique (m : Props) (k : string) (v v' : JsValue) :
  wf_object m -> In (k, v) m -> In (k, v') m -> v = v'.
Proof.
  intros Hwf Hv Hv'.
  rewrite <- (lookup_In m k v Hwf Hv); now apply lookup_In.
Qed.

Lemma genuine_passes (v : JsValue) :
  is_genuine_sublayer v = true -> passes_filter v = true.
Proof. intros H; rewrite passes_filter_cases, H; reflexivity. Qed.

Lemma genuine_not_degenerate (v : JsValue) :
  is_genuine_sublayer v = true -> is_degenerate v = false.
Proof.
  intros H; destruct (is_degenerate v) eqn:D; [|reflexivity].
  apply degenerate_not_passes in D; apply genuine_passes in H; congruence.
Qed.

(** Every registry variable is the variable of an entry that passes the
    filter. *)
Lemma registry_In (m : Props) (vars : list string) (x : string) :
  wf_object m ->
  allSubLayerVariables m = Ok vars ->
  In x vars <->
  exists k v, In (k, v) m /\ passes_filter v = true
              /\ x = generateSubLayerVariableName k.
Proof.
  intros Hwf Hvars; rewrite (allSubLayerVariables_wf m Hwf) in Hvars.
  inversion Hvars; subst vars; clear Hvars.
  rewrite map_map, in_map_iff; split.
  - intros ([k v] & Hx & Hin); apply filter_In in Hin as [Hin Hp].
    exists k, v; auto.
  - intros (k & v & Hin & Hp & ->); exists (k, v); split; [reflexivity|].
    apply filter_In; auto.
Qed.

Lemma registry_excludes_degenerate (m : Props) (vars : list string)
    (key : KeyCode) (value : JsValue) :
  wf_object m ->
  allSubLayerVariables m = Ok vars ->
  In (key, value) m ->
  is_degenerate value = true ->
  ~ In (generateSubLayerVariableName key) vars.
Proof.
  intros Hwf Hvars Hin Hdeg Hx.
  apply (registry_In m vars _ Hwf Hvars) in Hx as (k & v & Hkv & Hp & E).
  apply generateSubLayerVariableName_inj in E; subst k.
  rewrite (wf_object_unique m key value v Hwf Hin Hkv) in Hdeg.
  apply degenerate_not_passes in Hdeg; congruence.
Qed.

(** Every guard condition of every manipulator of an entry's rule is the
    master at 1, a registry variable at 0, or, in a command manipulator of
    a genuine sublayer, the sublayer's own variable at 1. *)
Lemma entryRule_guard_cases (vars : list string) (key : KeyCode)
    (value rule manipulator c : JsValue) :
  entryRule vars (key, value) = Ok rule ->
  In manipulator (manipulators rule) ->
  In c (conditions manipulator) ->
  c = variable_if "hyper" 1
  \/ (exists x, In x vars /\ c = variable_if x 0)
  \/ (c = variable_if (generateSubLayerVariableName key) 1
      /\ is_genuine_sublayer value = true).
Proof.
  intros Hrule Hman Hc.
  destruct (js_in "to" value) as [[|]|] eqn:Hin.
  - destruct (entryRule_direct vars key value Hin) as (man & E & _ & _ & Hg & _).
    rewrite E in Hrule; inversion Hrule; subst rule; clear Hrule.
    destruct Hman as [<-|[]].
    rewrite Hg in Hc; destruct Hc as [<-|Hc]; [now left|right; left].
    apply in_map_iff in Hc as (x & <- & Hx); eauto.
  - destruct (entryRule_sublayer vars key value Hin) as (ms & Hms & E).
    rewrite E in Hrule; inversion Hrule; subst rule; clear Hrule.
    change (In manipulator ms) in Hman.
    destruct (createHyperSubLayer_shape key value vars _
                (js_in_keys value _ Hin))
      as (toggle & cmds & E' & (_ & _ & _ & _ & _ & Hg) & _).
    assert (ms = toggle :: cmds) by congruence; subst ms.
    destruct Hman as [<-|Hman].
    + rewrite Hg in Hc; apply in_app_iff in Hc as [Hc|[<-|[]]]; [|now left].
      right; left.
      apply in_map_iff in Hc as (x & <- & Hx).
      apply filter_In in Hx as [Hx _]; eauto.
    + destruct (createHyperSubLayer_commands key value vars _ manipulator
                  Hms Hman) as [Hne Hg'].
      rewrite Hg' in Hc; destruct Hc as [<-|[]]; right; right.
      split; [reflexivity|].
      unfold is_genuine_sublayer, is_sublayer_map; rewrite Hin; simpl.
      destruct (own_props value); [congruence|reflexivity].
  - rewrite (entryRule_throws vars key value Hin) in Hrule; discriminate.
Qed.

Lemma entryRule_trigger (vars : list string) (key : KeyCode)
    (value rule : JsValue) :
  entryRule vars (key, value) = Ok rule -> trigger_key rule = JString key.
Proof.
  intros Hrule.
  destruct (js_in "to" value) as [[|]|] eqn:Hin.
  - destruct (entryRule_direct vars key value Hin) as (man & E & _ & Hf & _).
    rewrite E in Hrule; inversion Hrule; subst rule.
    unfold trigger_key; change (hd JUndefined _) with man.
    rewrite Hf; reflexivity.
  - destruct (entryRule_sublayer vars key value Hin) as (ms & Hms & E).
    rewrite E in Hrule; inversion Hrule; subst rule.
    destruct (createHyperSubLayer_shape key value vars _
                (js_in_keys value _ Hin))
      as (toggle & cmds & E' & (_ & Hf & _) & _).
    assert (ms = toggle :: cmds) by congruence; subst ms.
    unfold trigger_key; change (hd JUndefined _) with toggle.
    rewrite Hf; reflexivity.
  - rewrite (entryRule_throws vars key value Hin) in Hrule; discriminate.
Qed.

Lemma createHyperSubLayers_unfold (m : Props) (vars : list string) :
  allSubLayerVariables m = Ok vars ->
  createHyperSubLayers m = map_r (entryRule vars) m.
Proof. intros H; unfold createHyperSubLayers; rewrite H; reflexivity. Qed.

Lemma map_r_map {A B C} (f : A -> Result B) (g : B -> C) (h : A -> C)
    (l : list A) (ys : list B) :
  (forall x y, f x = Ok y -> g y = h x) ->
  map_r f l = Ok ys -> map g ys = map h l.
Proof.
  intros Hgh; revert ys; induction l as [|a r IH]; simpl; intros ys H.
  - now inversion H.
  - destruct (f a) as [y|] eqn:Ha; simpl in H; [|discriminate].
    destruct (map_r f r) as [ys'|]; simpl in H; [|discriminate].
    inversion H; subst; simpl; f_equal; auto.
Qed.

(** Compilation of a map whose values are all objects completes. *)
Lemma createHyperSubLayers_total (m : Props) :
  forallb (fun p => is_binding_entry (snd p)) m = true ->
  exists rules, createHyperSubLayers m = Ok rules.
Proof.
  intros Hobj; unfold createHyperSubLayers.
  rewrite allSubLayerVariables_eq; cbv beta iota delta [bind].
  apply map_r_total; intros [k v] Hin.
  apply entryRule_total.
  rewrite forallb_forall in Hobj; specialize (Hobj _ Hin).
  now apply String.eqb_eq in Hobj.
Qed.

(** ** Properties of [createHyperSubLayers] *)

(** C10: the master condition has a fixed place that depends on the kind
    of manipulator.  In the single manipulator of a direct rule
    "hyper == 1" comes first and the registry variables follow at 0, in
    registry order; in the toggle of a sublayer rule the other registry
    variables come first at 0, in registry order, and "hyper == 1" is the
    last condition. *)
Theorem C10_master_condition_position :
  forall (m : Props) (vars : list string) (rules : list JsValue)
         (i : nat) (key : KeyCode) (value rule : JsValue),
    allSubLayerVariables m = Ok vars ->
    createHyperSubLayers m = Ok rules ->
    nth_error m i = Some (key, value) ->
    nth_error rules i = Some rule ->
    if is_direct_action value
    then exists manipulator,
        manipulators rule = [manipulator] /\
        conditions manipulator
          = variable_if "hyper" 1 :: map (fun v => variable_if v 0) vars /\
        hd_error (conditions manipulator) = Some (variable_if "hyper" 1)
    else exists toggle cmds,
        manipulators rule = toggle :: cmds /\
        conditions toggle
          = (map (fun v => variable_if v 0)
               (filter
                  (fun v => negb (v =? generateSubLayerVariableName key))
                  vars)
             ++ [variable_if "hyper" 1])%list /\
        last (conditions toggle) JUndefined = variable_if "hyper" 1.
Proof.
  intros m vars rules i key value rule Hvars Hrules Hm Hr.
  rewrite (createHyperSubLayers_unfold m vars Hvars) in Hrules.
  destruct (map_r_nth _ _ _ _ _ Hrules Hm) as (rule' & Hr' & Hrule).
  assert (rule' = rule) by congruence; subst rule'.
  unfold is_direct_action.
  destruct (js_in "to" value) as [[|]|] eqn:Hin.
  - destruct (entryRule_direct vars key value Hin) as (man & E & _ & _ & Hg & _).
    rewrite E in Hrule; inversion Hrule; subst rule.
    exists man; split; [reflexivity|]; split; [exact Hg|].
    now rewrite Hg.
  - destruct (entryRule_sublayer vars key value Hin) as (ms & Hms & E).
    rewrite E in Hrule; inversion Hrule; subst rule.
    destruct (createHyperSubLayer_shape key value vars _
                (js_in_keys value _ Hin))
      as (toggle & cmds & E' & (_ & _ & _ & _ & _ & Hg) & _).
    assert (ms = toggle :: cmds) by congruence; subst ms.
    exists toggle, cmds; split; [reflexivity|]; split; [exact Hg|].
    rewrite Hg; apply last_last.
  - rewrite (entryRule_throws vars key value Hin) in Hrule; discriminate.
Qed.

Lemma C10_master_condition_position_witness :
  exists toggle cmds,
    manipulators (nth 0 two_sublayers_rules JUndefined) = toggle :: cmds /\
    conditions toggle
      = [variable_if "hyper_sublayer_p" 0; variable_if "hyper" 1] /\
    last (conditions toggle) JUndefined = variable_if "hyper" 1.
Proof.
  exact (C10_master_condition_position two_sublayers_map
           ["hyper_sublayer_o"; "hyper_sublayer_p"] two_sublayers_rules
           0 "o" _ _ eq_refl eq_refl eq_refl eq_refl).
Defined.

(** C7, amended: for every well-formed TopLevelMap compilation completes
    and the number of emitted Rules equals the number of top-level
    entries, the degenerate entries included. *)
Theorem C7_one_rule_per_entry :
  forall m : Props,
    well_formed_map m ->
    exists rules,
      createHyperSubLayers m = Ok rules /\
      length rules = length m.
Proof.
  intros m [_ Hobj].
  destruct (createHyperSubLayers_total m Hobj) as [rules E].
  exists rules; split; [exact E|].
  unfold createHyperSubLayers in E; rewrite allSubLayerVariables_eq in E.
  exact (map_r_length _ _ _ E).
Qed.

Lemma C7_one_rule_per_entry_witness :
  exists rules,
    createHyperSubLayers two_sublayers_map = Ok rules /\
    length rules = length two_sublayers_map.
Proof.
  apply C7_one_rule_per_entry.
  apply well_formed_map_check; reflexivity.
Defined.

(** C7 as worded fails on [{ x: {} }]: the map is well formed, its only
    entry is degenerate, and one rule is emitted. *)
Lemma C7_counterexample : ~ rules_count_non_degenerate empty_sublayer_map.
Proof.
  intros H; destruct H as (rules & E & L).
  - apply well_formed_map_check; reflexivity.
  - vm_compute in E; inversion E; subst rules.
    vm_compute in L; discriminate.
Qed.

(** C9, amended: compilation does not validate key identifiers.  For every
    well-formed map, whatever strings it uses as keys, compilation
    completes and the rule emitted for an entry triggers on that entry's
    key as supplied. *)
Theorem C9_keys_are_not_validated :
  forall m : Props,
    well_formed_map m ->
    exists rules,
      createHyperSubLayers m = Ok rules /\
      map trigger_key rules = map (fun e => JString (fst e)) m.
Proof.
  intros m [_ Hobj].
  destruct (createHyperSubLayers_total m Hobj) as [rules E].
  exists rules; split; [exact E|].
  unfold createHyperSubLayers in E; rewrite allSubLayerVariables_eq in E.
  cbv beta iota delta [bind] in E.
  refine (map_r_map _ trigger_key _ m rules _ E).
  intros [k v] rule Hrule; exact (entryRule_trigger _ k v rule Hrule).
Qed.

Lemma C9_keys_are_not_validated_witness :
  exists rules,
    createHyperSubLayers unknown_key_map = Ok rules /\
    map trigger_key rules = [JString "not_a_key"].
Proof.
  apply (C9_keys_are_not_validated unknown_key_map).
  apply well_formed_map_check; reflexivity.
Defined.

(** C9 as worded fails on [{ not_a_key: {to: [...]} }]: whatever the
    recognised set, as long as it leaves ["not_a_key"] out, compilation
    does not fail. *)
Lemma C9_counterexample :
  ~ exists recognized : KeyCode -> bool,
      recognized "not_a_key" = false /\
      rejects_unrecognized recognized unknown_key_map.
Proof.
  intros (recognized & Hr & H).
  assert (E : createHyperSubLayers unknown_key_map = TypeError).
  { apply H; exists "not_a_key"; split; [now left|exact Hr]. }
  vm_compute in E; discriminate.
Qed.

(** C3, amended: a top-level entry that the source detects as degenerate
    (an object owning no key other than ["to"]) contributes no variable to
    the registry and no manipulator of any emitted rule mentions its
    variable.  It is compiled by the marker test alone: with a ["to"] field
    via the direct path, as a rule with the direct description and one
    manipulator that triggers on the key and carries the entry's [to];
    as the empty map via the sublayer path, as a rule with the sublayer
    description whose only manipulator is the toggle of the key. *)
Theorem C3_degenerate_entry_compilation :
  forall (m : Props) (i : nat) (key : KeyCode) (value : JsValue)
         (vars : list string) (rules : list JsValue),
    wf_object m ->
    nth_error m i = Some (key, value) ->
    is_degenerate value = true ->
    allSubLayerVariables m = Ok vars ->
    createHyperSubLayers m = Ok rules ->
    ~ In (generateSubLayerVariableName key) vars /\
    (forall rule manipulator,
        In rule rules ->
        In manipulator (manipulators rule) ->
        ~ mentions (generateSubLayerVariableName key) manipulator) /\
    exists rule manipulator,
      nth_error rules i = Some rule /\
      manipulators rule = [manipulator] /\
      if is_direct_action value
      then get rule "description" = JString ("Hyper Key + " ++ key) /\
           get manipulator "from" = from_any key /\
           get manipulator "to" = get value "to"
      else get rule "description"
             = JString ("Hyper Key sublayer " ++ dquote ++ key ++ dquote) /\
           get manipulator "from" = from_any key /\
           is_toggle_of key manipulator.
Proof.
  intros m i key value vars rules Hwf Hm Hdeg Hvars Hrules.
  pose proof (nth_error_In _ _ Hm) as Hin.
  pose proof (registry_excludes_degenerate m vars key value Hwf Hvars Hin Hdeg)
    as Hnot.
  rewrite (createHyperSubLayers_unfold m vars Hvars) in Hrules.
  split; [exact Hnot|]; split.
  - intros rule man Hrule Hman (c & Hc & Hname).
    destruct (map_r_In _ _ _ _ Hrules Hrule) as ([k v] & Hkv & Hk).
    destruct (entryRule_guard_cases vars k v rule man c Hk Hman Hc)
      as [->|[(x & Hx & ->)|[-> Hgen]]].
    + apply (generateSubLayerVariableName_not_hyper key).
      change (JString "hyper" = JString (generateSubLayerVariableName key))
        in Hname.
      congruence.
    + change (JString x = JString (generateSubLayerVariableName key)) in Hname.
      apply Hnot; congruence.
    + change (JString (generateSubLayerVariableName k)
              = JString (generateSubLayerVariableName key)) in Hname.
      assert (E : k = key)
        by (apply generateSubLayerVariableName_inj; congruence).
      subst k.
      rewrite (wf_object_unique m key v value Hwf Hkv Hin) in Hgen.
      apply genuine_not_degenerate in Hgen; congruence.
  - destruct (map_r_nth _ _ _ _ _ Hrules Hm) as (rule & Hr & Hrule).
    unfold is_direct_action.
    destruct (js_in "to" value) as [[|]|] eqn:Hto.
    + destruct (entryRule_direct vars key value Hto)
        as (man & E & _ & Hf & _ & Hpass).
      rewrite E in Hrule; inversion Hrule; subst rule.
      eexists; exists man; split; [exact Hr|]; split; [reflexivity|].
      split; [reflexivity|]; split; [exact Hf|].
      apply Hpass; reflexivity.
    + destruct (entryRule_sublayer vars key value Hto) as (ms & Hms & E).
      rewrite E in Hrule; inversion Hrule; subst rule.
      destruct (createHyperSubLayer_shape key value vars _
                  (js_in_keys value _ Hto))
        as (toggle & cmds & E' & (_ & Hf & _ & _ & Ht & _) & Hlen & _).
      assert (ms = toggle :: cmds) by congruence; subst ms.
      assert (Hnil : cmds = []).
      { apply length_zero_iff_nil; rewrite Hlen.
        apply andb_true_iff in Hdeg as [_ Hdeg].
        apply js_in_object in Hto as [_ Hto].
        rewrite (filter_not_to_id _ Hto) in Hdeg.
        now apply Nat.eqb_eq in Hdeg. }
      subst cmds.
      eexists; exists toggle; split; [exact Hr|]; split; [reflexivity|].
      split; [reflexivity|]; split; [exact Hf|exact Ht].
    + rewrite (entryRule_throws vars key value Hto) in Hrule; discriminate.
Qed.

Lemma C3_degenerate_entry_compilation_witness :
  ~ In "hyper_sublayer_x" ["hyper_sublayer_o"; "hyper_sublayer_p"] /\
  (forall rule manipulator,
      In rule two_sublayers_rules ->
      In manipulator (manipulators rule) ->
      ~ mentions "hyper_sublayer_x" manipulator) /\
  exists rule manipulator,
    nth_error two_sublayers_rules 3 = Some rule /\
    manipulators rule = [manipulator] /\
    get rule "description"
      = JString ("Hyper Key sublayer " ++ dquote ++ "x" ++ dquote) /\
    get manipulator "from" = from_any "x" /\
    is_toggle_of "x" manipulator.
Proof.
  apply (C3_degenerate_entry_compilation two_sublayers_map 3 "x" (JObject [])
           ["hyper_sublayer_o"; "hyper_sublayer_p"] two_sublayers_rules).
  - apply distinct_NoDup; reflexivity.
  - reflexivity.
  - reflexivity.
  - reflexivity.
  - reflexivity.
Defined.

(** C3 as worded fails on [{ x: {} }]: the entry is degenerate, and the
    rule emitted for it is the sublayer rule holding the toggle of [x]. *)
Lemma C3_counterexample : ~ degenerate_compiled_direct empty_sublayer_map.
Proof.
  intros H.
  destruct (H 0 "x" (JObject []) [] empty_sublayer_rules
              eq_refl eq_refl eq_refl eq_refl)
    as (_ & _ & rule & man & Hr & Hd & _).
  inversion Hr; subst rule.
  vm_compute in Hd; discriminate.
Qed.

(** ** The registry against the genuine sublayers *)

Lemma registry_contains_genuine (m : Props) (vars : list string)
    (key : KeyCode) (value : JsValue) :
  wf_object m ->
  allSubLayerVariables m = Ok vars ->
  In (key, value) m ->
  is_genuine_sublayer value = true ->
  In (generateSubLayerVariableName key) vars.
Proof.
  intros Hwf Hvars Hin Hgen.
  apply (registry_In m vars _ Hwf Hvars).
  exists key, value; auto using genuine_passes.
Qed.

(** When no direct action owns a key besides ["to"], the registry is
    exactly the list of the genuine sublayers' variables. *)
Lemma registry_exact (m : Props) :
  wf_object m ->
  (forall k v, In (k, v) m -> is_direct_action v = true ->
               filter not_to (map fst (own_props v)) = []) ->
  allSubLayerVariables m
  = Ok (map generateSubLayerVariableName (genuine_sublayers m)).
Proof.
  intros Hwf Hbare; rewrite (allSubLayerVariables_wf m Hwf).
  unfold genuine_sublayers; do 3 f_equal.
  apply filter_ext_in; intros [k v] Hin; cbn [snd].
  rewrite passes_filter_cases.
  destruct (is_direct_action v) eqn:Hd; [|now rewrite orb_false_r].
  rewrite (Hbare k v Hin Hd); simpl; now rewrite orb_false_r.
Qed.

Lemma NoDup_keys_filter (m : Props) (p : string * JsValue -> bool) :
  NoDup (map fst m) -> NoDup (map fst (filter p m)).
Proof.
  induction m as [|[k v] r IH]; simpl; intros H; [constructor|].
  inversion H as [|? ? Hk Hr]; subst.
  destruct (p (k, v)); simpl; [constructor|]; auto.
  intros Hin; apply Hk.
  apply in_map_iff in Hin as (e & He & Hin); apply filter_In in Hin as [Hin _].
  rewrite <- He; now apply in_map.
Qed.

Lemma NoDup_variable_names (l : list KeyCode) :
  NoDup l -> NoDup (map generateSubLayerVariableName l).
Proof.
  induction 1 as [|k r Hk Hr IH]; simpl; constructor; [|assumption].
  intros Hin; apply in_map_iff in Hin as (k' & E & Hin).
  apply generateSubLayerVariableName_inj in E; now subst.
Qed.

Lemma registry_NoDup (m : Props) (vars : list string) :
  wf_object m -> allSubLayerVariables m = Ok vars -> NoDup vars.
Proof.
  intros Hwf Hvars; rewrite (allSubLayerVariables_wf m Hwf) in Hvars.
  inversion Hvars; subst vars.
  now apply NoDup_variable_names, NoDup_keys_filter.
Qed.

Lemma filter_out_length (x : string) (l : list string) :
  NoDup l -> In x l ->
  S (length (filter (fun v => negb (v =? x)) l)) = length l.
Proof.
  induction 1 as [|a r Ha Hr IH]; intros Hin; [destruct Hin|].
  change (filter (fun v => negb (v =? x)) (a :: r))
    with (if negb (a =? x) then a :: filter (fun v => negb (v =? x)) r
          else filter (fun v => negb (v =? x)) r).
  destruct (a =? x) eqn:E; simpl.
  - apply String.eqb_eq in E; subst a; f_equal.
    clear IH Hin Hr; induction r as [|b r IH]; [reflexivity|].
    change (filter (fun v => negb (v =? x)) (b :: r))
      with (if negb (b =? x) then b :: filter (fun v => negb (v =? x)) r
            else filter (fun v => negb (v =? x)) r).
    destruct (b =? x) eqn:Eb.
    + apply String.eqb_eq in Eb; subst b; exfalso; apply Ha; now left.
    + simpl; f_equal; apply IH; intros Hin; apply Ha; now right.
  - f_equal; apply IH.
    destruct Hin as [->|Hin]; [rewrite String.eqb_refl in E; discriminate|].
    exact Hin.
Qed.

(** The toggle guard of a genuine sublayer: the master at 1, every other
    genuine sublayer's variable at 0, never its own variable; symmetric in
    any two genuine sublayers.  Its size is the size of the registry. *)
Lemma toggle_guard_contents (m : Props) (vars : list string)
    (rules : list JsValue) (i : nat) (key : KeyCode) (value : JsValue) :
  wf_object m ->
  allSubLayerVariables m = Ok vars ->
  createHyperSubLayers m = Ok rules ->
  nth_error m i = Some (key, value) ->
  is_genuine_sublayer value = true ->
  exists rule toggle cmds,
    nth_error rules i = Some rule /\
    manipulators rule = toggle :: cmds /\
    is_toggle_of key toggle /\
    In (variable_if "hyper" 1) (conditions toggle) /\
    (forall k' v',
        In (k', v') m -> is_genuine_sublayer v' = true -> k' <> key ->
        In (variable_if (generateSubLayerVariableName k') 0)
           (conditions toggle)) /\
    ~ mentions (generateSubLayerVariableName key) toggle /\
    length (conditions toggle) = 1 + length vars - 1.
Proof.
  intros Hwf Hvars Hrules Hm Hgen.
  pose proof (nth_error_In _ _ Hm) as Hin.
  rewrite (createHyperSubLayers_unfold m vars Hvars) in Hrules.
  destruct (map_r_nth _ _ _ _ _ Hrules Hm) as (rule & Hr & Hrule).
  assert (Hto : js_in "to" value = Ok false).
  { unfold is_genuine_sublayer, is_sublayer_map in Hgen.
    destruct (js_in "to" value) as [[|]|]; simpl in Hgen;
      try discriminate; reflexivity. }
  destruct (entryRule_sublayer vars key value Hto) as (ms & Hms & E).
  rewrite E in Hrule; inversion Hrule; subst rule.
  destruct (createHyperSubLayer_shape key value vars _ (js_in_keys value _ Hto))
    as (toggle & cmds & E' & (_ & _ & _ & _ & Ht & Hg) & _).
  assert (ms = toggle :: cmds) by congruence; subst ms.
  eexists; exists toggle, cmds; split; [exact Hr|]; split; [reflexivity|].
  split; [exact Ht|]; rewrite Hg; split; [|split; [|split]].
  - apply in_or_app; right; now left.
  - intros k' v' Hin' Hgen' Hne; apply in_or_app; left.
    apply (in_map (fun v => variable_if v 0)), filter_In; split.
    + exact (registry_contains_genuine m vars k' v' Hwf Hvars Hin' Hgen').
    + apply negb_true_iff, String.eqb_neq; intros Heq.
      now apply generateSubLayerVariableName_inj in Heq.
  - intros (c & Hc & Hname).
    rewrite Hg in Hc; apply in_app_iff in Hc as [Hc|[<-|[]]].
    + apply in_map_iff in Hc as (x & <- & Hx).
      apply filter_In in Hx as [_ Hx].
      change (JString x = JString (generateSubLayerVariableName key)) in Hname.
      apply negb_true_iff, String.eqb_neq in Hx; congruence.
    + apply (generateSubLayerVariableName_not_hyper key).
      change (JString "hyper" = JString (generateSubLayerVariableName key))
        in Hname.
      congruence.
  - rewrite length_app, length_map; simpl.
    pose proof (filter_out_length (generateSubLayerVariableName key) vars
                  (registry_NoDup m vars Hwf Hvars)
                  (registry_contains_genuine m vars key value Hwf Hvars Hin Hgen)).
    lia.
Qed.

(** The rule of a direct entry: one manipulator, triggering on the key,
    carrying the entry's [to], guarded by the master at 1 and every
    registry variable at 0. *)
Lemma direct_rule_shape (m : Props) (vars : list string)
    (rules : list JsValue) (i : nat) (key : KeyCode) (value : JsValue) :
  allSubLayerVariables m = Ok vars ->
  createHyperSubLayers m = Ok rules ->
  nth_error m i = Some (key, value) ->
  is_direct_action value = true ->
  exists rule manipulator,
    nth_error rules i = Some rule /\
    get rule "description" = JString ("Hyper Key + " ++ key) /\
    manipulators rule = [manipulator] /\
    get manipulator "from" = from_any key /\
    get manipulator "to" = get value "to" /\
    get manipulator "description" = get value "description" /\
    conditions manipulator
      = variable_if "hyper" 1 :: map (fun v => variable_if v 0) vars /\
    length (conditions manipulator) = 1 + length vars.
Proof.
  intros Hvars Hrules Hm Hd.
  rewrite (createHyperSubLayers_unfold m vars Hvars) in Hrules.
  destruct (map_r_nth _ _ _ _ _ Hrules Hm) as (rule & Hr & Hrule).
  assert (Hto : js_in "to" value = Ok true).
  { unfold is_direct_action in Hd.
    destruct (js_in "to" value) as [[|]|]; try discriminate; reflexivity. }
  destruct (entryRule_direct vars key value Hto)
    as (man & E & _ & Hf & Hg & Hpass).
  rewrite E in Hrule; inversion Hrule; subst rule.
  eexists; exists man; split; [exact Hr|].
  repeat split; try assumption.
  - apply Hpass; reflexivity.
  - apply Hpass; reflexivity.
  - rewrite Hg; simpl; now rewrite length_map.
Qed.

(** Where the registry is exact, that is where no direct action owns a key
    besides ["to"], the guard sizes are those of the specification. *)
Lemma toggle_guard_size_exact (m : Props) (rules : list JsValue) (i : nat)
    (key : KeyCode) (value : JsValue) :
  wf_object m ->
  (forall k v, In (k, v) m -> is_direct_action v = true ->
               filter not_to (map fst (own_props v)) = []) ->
  createHyperSubLayers m = Ok rules ->
  nth_error m i = Some (key, value) ->
  is_genuine_sublayer value = true ->
  exists rule toggle cmds,
    nth_error rules i = Some rule /\
    manipulators rule = toggle :: cmds /\
    length (conditions toggle) = 1 + length (genuine_sublayers m) - 1.
Proof.
  intros Hwf Hbare Hrules Hm Hgen.
  pose proof (registry_exact m Hwf Hbare) as Hvars.
  destruct (toggle_guard_contents m _ rules i key value Hwf Hvars Hrules Hm Hgen)
    as (rule & toggle & cmds & Hr & Hms & _ & _ & _ & _ & Hlen).
  exists rule, toggle, cmds; repeat split; try assumption.
  now rewrite Hlen, length_map.
Qed.

Lemma direct_guard_size_exact (m : Props) (rules : list JsValue) (i : nat)
    (key : KeyCode) (value : JsValue) :
  wf_object m ->
  (forall k v, In (k, v) m -> is_direct_action v = true ->
               filter not_to (map fst (own_props v)) = []) ->
  createHyperSubLayers m = Ok rules ->
  nth_error m i = Some (key, value) ->
  is_direct_action value = true ->
  exists rule manipulator,
    nth_error rules i = Some rule /\
    manipulators rule = [manipulator] /\
    length (conditions manipulator) = 1 + length (genuine_sublayers m).
Proof.
  intros Hwf Hbare Hrules Hm Hd.
  pose proof (registry_exact m Hwf Hbare) as Hvars.
  destruct (direct_rule_shape m _ rules i key value Hvars Hrules Hm Hd)
    as (rule & man & Hr & _ & Hms & _ & _ & _ & _ & Hlen).
  exists rule, man; repeat split; try assumption.
  now rewrite Hlen, length_map.
Qed.

(** ** Where the code departs from the specification *)

(** C2: the registry is meant to hold the variables of the genuine
    sublayers only.  On [{ o: { g: ... }, m: {to, description} }] the
    filter lets the direct action [m] through, because its [description]
    key is a key other than ["to"]: the registry lists [hyper_sublayer_m]
    although [m] is a direct action and [o] the only genuine sublayer. *)
Theorem C2_registry_lists_described_action :
  allSubLayerVariables chrome_mail_map
  = Ok ["hyper_sublayer_o"; "hyper_sublayer_m"] /\
  map generateSubLayerVariableName (genuine_sublayers chrome_mail_map)
  = ["hyper_sublayer_o"] /\
  is_direct_action (lookup chrome_mail_map "m") = true /\
  is_genuine_sublayer (lookup chrome_mail_map "m") = false.
Proof. repeat split; reflexivity. Qed.

(** C1: on the same input the toggle of the one genuine sublayer [o] is
    guarded by [hyper_sublayer_m == 0] and [hyper == 1]: two conditions,
    where the specification counts [1 + 1 - 1]. *)
Theorem C1_toggle_guard_counts_described_action :
  exists rule_o rule_m toggle cmds,
    createHyperSubLayers chrome_mail_map = Ok [rule_o; rule_m] /\
    manipulators rule_o = toggle :: cmds /\
    is_toggle_of "o" toggle /\
    genuine_sublayers chrome_mail_map = ["o"] /\
    conditions toggle
      = [variable_if "hyper_sublayer_m" 0; variable_if "hyper" 1] /\
    length (conditions toggle)
      <> 1 + length (genuine_sublayers chrome_mail_map) - 1.
Proof.
  do 4 eexists; split; [vm_compute; reflexivity|].
  split; [vm_compute; reflexivity|].
  repeat split; vm_compute; discriminate.
Qed.

(** C4: on the same input the direct rule of [m] is guarded by
    [hyper == 1], [hyper_sublayer_o == 0] and its own, never set,
    [hyper_sublayer_m == 0]: three conditions, where the specification
    counts [1 + 1]. *)
Theorem C4_direct_guard_counts_described_action :
  exists rule_o rule_m manipulator,
    createHyperSubLayers chrome_mail_map = Ok [rule_o; rule_m] /\
    get rule_m "description" = JString "Hyper Key + m" /\
    manipulators rule_m = [manipulator] /\
    get manipulator "from" = from_any "m" /\
    get manipulator "to" = JArray [shell "open -a Mail"] /\
    genuine_sublayers chrome_mail_map = ["o"] /\
    conditions manipulator
      = [ variable_if "hyper" 1;
          variable_if "hyper_sublayer_o" 0;
          variable_if "hyper_sublayer_m" 0 ] /\
    length (conditions manipulator)
      <> 1 + length (genuine_sublayers chrome_mail_map).
Proof.
  do 3 eexists; split; [vm_compute; reflexivity|].
  split; [reflexivity|].
  split; [vm_compute; reflexivity|].
  repeat split; vm_compute; discriminate.
Qed.

(** C8: the registry filter skips an [undefined] entry, but the traversal
    of the entries then evaluates ["to" in undefined], which throws: on
    [{ o: { g: ... }, m: undefined }] compilation raises a TypeError. *)
Theorem C8_undefined_entry_throws :
  allSubLayerVariables undefined_entry_map = Ok ["hyper_sublayer_o"] /\
  js_in "to" (lookup undefined_entry_map "m") = TypeError /\
  createHyperSubLayers undefined_entry_map = TypeError.
Proof. repeat split; reflexivity. Qed.

(** ** Further properties of the compiler *)

(** X1: variable names are collision-free: two keys get the same state
    variable only if they are the same key, and no key's variable is the
    master variable [hyper]. *)
Theorem X1_variable_names_collision_free :
  forall a b : KeyCode,
    (generateSubLayerVariableName a = generateSubLayerVariableName b <-> a = b)
    /\ generateSubLayerVariableName a <> "hyper".
Proof.
  intros a b; split; [split|].
  - apply generateSubLayerVariableName_inj.
  - now intros ->.
  - apply generateSubLayerVariableName_not_hyper.
Qed.

Lemma map_r_throws {A B} (f : A -> Result B) (l : list A) :
  map_r f l = TypeError <-> exists x, In x l /\ f x = TypeError.
Proof.
  induction l as [|a r IH]; simpl.
  - split; [discriminate|intros (x & [] & _)].
  - destruct (f a) as [y|] eqn:Ha; simpl.
    + destruct (map_r f r) as [ys|] eqn:Hr; simpl.
      * split; [discriminate|].
        intros (x & [<-|Hx] & Hfx); [congruence|].
        destruct IH as [_ IH].
        assert (E : Ok ys = @TypeError (list B)) by (apply IH; eauto).
        discriminate.
      * split; [|reflexivity].
        intros _; destruct IH as [IH _].
        destruct (IH eq_refl) as (x & Hx & Hfx); eauto.
    + split; [|reflexivity]; eauto.
Qed.

Lemma entryRule_throws_iff (vars : list string) (key : KeyCode)
    (value : JsValue) :
  entryRule vars (key, value) = TypeError <-> typeof value <> "object".
Proof.
  split.
  - intros H Hobj.
    destruct (entryRule_total vars key value Hobj) as [rule E]; congruence.
  - intros H; apply entryRule_throws.
    destruct value; simpl in *; try reflexivity; congruence.
Qed.

(** X2: compilation throws exactly when some top-level value is not an
    object ([undefined], a string, a number); every map of objects,
    degenerate or not, compiles. *)
Theorem X2_compilation_throws_iff_non_object_entry :
  forall m : Props,
    createHyperSubLayers m = TypeError
    <-> exists key value, In (key, value) m /\ typeof value <> "object".
Proof.
  intros m; unfold createHyperSubLayers.
  rewrite allSubLayerVariables_eq; cbn [bind Object_entries own_props].
  rewrite map_r_throws; split.
  - intros ([k v] & Hin & H); exists k, v; split; [exact Hin|].
    exact (proj1 (entryRule_throws_iff _ k v) H).
  - intros (k & v & Hin & H); exists (k, v); split; [exact Hin|].
    exact (proj2 (entryRule_throws_iff _ k v) H).
Qed.

Lemma passes_filter_spec (v : JsValue) :
  passes_filter v = true <->
  typeof v <> "undefined" /\ typeof v <> "string" /\
  exists k, In k (map fst (own_props v)) /\ k <> "to".
Proof.
  unfold passes_filter; rewrite !andb_true_iff, !negb_true_iff.
  rewrite !String.eqb_neq, Nat.eqb_neq.
  split.
  - intros [[H1 H2] H3]; split; [exact H1|]; split; [exact H2|].
    destruct (filter not_to (map fst (own_props v))) as [|k r] eqn:E;
      [now elim H3|].
    assert (Hk : In k (filter not_to (map fst (own_props v))))
      by (rewrite E; now left).
    apply filter_In in Hk as [Hk Hnot]; exists k; split; [exact Hk|].
    now apply negb_true_iff, String.eqb_neq in Hnot.
  - intros (H1 & H2 & k & Hk & Hne).
    split; [split; assumption|].
    intros Hlen; apply length_zero_iff_nil in Hlen.
    assert (Hin : In k (filter not_to (map fst (own_props v)))).
    { apply filter_In; split; [exact Hk|].
      now apply negb_true_iff, String.eqb_neq. }
    rewrite Hlen in Hin; destruct Hin.
Qed.

(** X3: on an object with distinct keys, whenever the registry is
    computed it holds no variable twice, and it holds the variable of a key
    exactly when the key's value is neither [undefined] nor a string and
    owns a key other than ["to"]. *)
Theorem X3_registry_contents :
  forall (m : Props) (vars : list string),
    wf_object m ->
    allSubLayerVariables m = Ok vars ->
    NoDup vars /\
    forall x,
      In x vars <->
      exists key value,
        In (key, value) m /\
        typeof value <> "undefined" /\
        typeof value <> "string" /\
        (exists k, In k (map fst (own_props value)) /\ k <> "to") /\
        x = generateSubLayerVariableName key.
Proof.
  intros m vars Hwf Hvars.
  split; [exact (registry_NoDup m _ Hwf Hvars)|].
  intros x; rewrite (registry_In m _ x Hwf Hvars); split.
  - intros (k & v & Hin & Hp & ->); exists k, v.
    apply passes_filter_spec in Hp as (H1 & H2 & H3); auto.
  - intros (k & v & Hin & H1 & H2 & H3 & ->); exists k, v.
    split; [exact Hin|]; split; [|reflexivity].
    apply passes_filter_spec; auto.
Qed.

Lemma X3_registry_contents_witness :
  NoDup ["hyper_sublayer_o"; "hyper_sublayer_p"] /\
  forall x,
    In x ["hyper_sublayer_o"; "hyper_sublayer_p"] <->
    exists key value,
      In (key, value) two_sublayers_map /\
      typeof value <> "undefined" /\
      typeof value <> "string" /\
      (exists k, In k (map fst (own_props value)) /\ k <> "to") /\
      x = generateSubLayerVariableName key.
Proof.
  apply (X3_registry_contents two_sublayers_map).
  - apply distinct_NoDup; reflexivity.
  - reflexivity.
Defined.

Lemma map_r_app {A B} (f : A -> Result B) (a b : list A) (r1 r2 : list B) :
  map_r f a = Ok r1 -> map_r f b = Ok r2 ->
  map_r f (a ++ b) = Ok (r1 ++ r2)%list.
Proof.
  revert r1; induction a as [|x a IH]; simpl; intros r1 Ha Hb.
  - inversion Ha; subst; exact Hb.
  - destruct (f x) as [y|]; simpl in *; [|discriminate].
    destruct (map_r f a) as [ys|]; simpl in *; [|discriminate].
    inversion Ha; subst; rewrite (IH ys eq_refl Hb); reflexivity.
Qed.

Lemma map_r_app_inv {A B} (f : A -> Result B) (a b : list A) (r : list B) :
  map_r f (a ++ b) = Ok r ->
  exists r1 r2, map_r f a = Ok r1 /\ map_r f b = Ok r2 /\ r = (r1 ++ r2)%list.
Proof.
  revert r; induction a as [|x a IH]; simpl; intros r H.
  - exists [], r; auto.
  - destruct (f x) as [y|]; simpl in *; [|discriminate].
    destruct (map_r f (a ++ b)) as [ys|]; simpl in *; [|discriminate].
    inversion H; subst.
    destruct (IH ys eq_refl) as (r1 & r2 & -> & Hb & ->).
    exists (y :: r1), r2; auto.
Qed.

Lemma wf_object_remove (m1 m2 : Props) (e : string * JsValue) :
  wf_object (m1 ++ e :: m2)%list -> wf_object (m1 ++ m2)%list.
Proof.
  unfold wf_object; rewrite !map_app; simpl; apply NoDup_remove_1.
Qed.

(** X4: a degenerate entry is transparent.  Adding one anywhere in a map
    leaves the registry as it is and leaves the rule of every other entry
    as it is: the new map compiles to the old rules with one rule
    inserted at the entry's position. *)
Theorem X4_degenerate_entry_is_transparent :
  forall (m1 m2 : Props) (key : KeyCode) (value : JsValue)
         (rules : list JsValue),
    wf_object (m1 ++ (key, value) :: m2)%list ->
    is_degenerate value = true ->
    createHyperSubLayers (m1 ++ m2)%list = Ok rules ->
    allSubLayerVariables (m1 ++ (key, value) :: m2)%list
    = allSubLayerVariables (m1 ++ m2)%list /\
    exists rule,
      createHyperSubLayers (m1 ++ (key, value) :: m2)%list
      = Ok (firstn (length m1) rules ++ rule :: skipn (length m1) rules)%list.
Proof.
  intros m1 m2 key value rules Hwf Hdeg Hrules.
  pose proof (wf_object_remove m1 m2 _ Hwf) as Hwf'.
  assert (Hreg : allSubLayerVariables (m1 ++ (key, value) :: m2)%list
                 = allSubLayerVariables (m1 ++ m2)%list).
  { rewrite (allSubLayerVariables_wf _ Hwf), (allSubLayerVariables_wf _ Hwf').
    rewrite !filter_app; simpl.
    now rewrite (degenerate_not_passes value Hdeg). }
  split; [exact Hreg|].
  destruct (allSubLayerVariables (m1 ++ m2)%list) as [vars|] eqn:Hvars;
    [|unfold createHyperSubLayers in Hrules; rewrite Hvars in Hrules;
      discriminate].
  rewrite (createHyperSubLayers_unfold _ vars Hvars) in Hrules.
  rewrite (createHyperSubLayers_unfold _ vars Hreg).
  destruct (map_r_app_inv _ _ _ _ Hrules) as (r1 & r2 & H1 & H2 & ->).
  assert (Hobj : typeof value = "object").
  { apply andb_true_iff in Hdeg as [Hdeg _]; now apply String.eqb_eq. }
  destruct (entryRule_total vars key value Hobj) as [rule Hrule].
  exists rule.
  rewrite <- (map_r_length _ _ _ H1).
  rewrite firstn_app, firstn_all, Nat.sub_diag, app_nil_r.
  rewrite skipn_app, skipn_all, Nat.sub_diag; simpl.
  apply map_r_app; [exact H1|].
  simpl; rewrite Hrule, H2; reflexivity.
Qed.

Lemma X4_degenerate_entry_is_transparent_witness :
  allSubLayerVariables two_sublayers_map
  = allSubLayerVariables (firstn 3 two_sublayers_map) /\
  exists rule,
    createHyperSubLayers two_sublayers_map
    = Ok (firstn 3 (firstn 3 two_sublayers_rules) ++ rule
          :: skipn 3 (firstn 3 two_sublayers_rules))%list.
Proof.
  apply (X4_degenerate_entry_is_transparent
           (firstn 3 two_sublayers_map) [] "x" (JObject [])
           (firstn 3 two_sublayers_rules)).
  - apply distinct_NoDup; reflexivity.
  - reflexivity.
  - reflexivity.
Defined.



Lemma wf_object_positions (m : Props) (i j : nat) (k : string)
    (v v' : JsValue) :
  wf_object m ->
  nth_error m i = Some (k, v) -> nth_error m j = Some (k, v') -> i = j.
Proof.
  intros Hwf Hi Hj.
  apply (proj1 (NoDup_nth_error (map fst m)) Hwf).
  - rewrite length_map; apply nth_error_Some; congruence.
  - now rewrite (map_nth_error fst _ _ Hi), (map_nth_error fst _ _ Hj).
Qed.

(** X6: mutual exclusion of the toggles.  For two genuine sublayers A and
    B at different positions of a map with distinct keys, the toggle of A
    is guarded by "B's variable == 0" and the toggle of B by "A's variable
    == 0"; neither toggle has a condition on its own variable, and each has
    as many conditions as the registry has variables. *)
Theorem X6_toggles_exclude_each_other :
  forall (m : Props) (vars : list string) (rules : list JsValue)
         (i j : nat) (ka kb : KeyCode) (va vb : JsValue),
    wf_object m ->
    allSubLayerVariables m = Ok vars ->
    createHyperSubLayers m = Ok rules ->
    nth_error m i = Some (ka, va) ->
    nth_error m j = Some (kb, vb) ->
    is_genuine_sublayer va = true ->
    is_genuine_sublayer vb = true ->
    i <> j ->
    exists ra rb ta tb ca cb,
      nth_error rules i = Some ra /\ manipulators ra = ta :: ca /\
      nth_error rules j = Some rb /\ manipulators rb = tb :: cb /\
      is_toggle_of ka ta /\ is_toggle_of kb tb /\
      In (variable_if (generateSubLayerVariableName kb) 0) (conditions ta) /\
      In (variable_if (generateSubLayerVariableName ka) 0) (conditions tb) /\
      ~ mentions (generateSubLayerVariableName ka) ta /\
      ~ mentions (generateSubLayerVariableName kb) tb /\
      length (conditions ta) = length vars /\
      length (conditions tb) = length vars.
Proof.
  intros m vars rules i j ka kb va vb Hwf Hvars Hrules Hi Hj Hga Hgb Hij.
  assert (Hne : ka <> kb).
  { intros ->; apply Hij; exact (wf_object_positions m i j kb va vb Hwf Hi Hj). }
  destruct (toggle_guard_contents m vars rules i ka va Hwf Hvars Hrules Hi Hga)
    as (ra & ta & ca & Hra & Hma & Hta & _ & Hoa & Hsa & Hla).
  destruct (toggle_guard_contents m vars rules j kb vb Hwf Hvars Hrules Hj Hgb)
    as (rb & tb & cb & Hrb & Hmb & Htb & _ & Hob & Hsb & Hlb).
  assert (Hpos : 0 < length vars).
  { pose proof (registry_contains_genuine m vars ka va Hwf Hvars
                  (nth_error_In _ _ Hi) Hga) as Hin.
    destruct vars; [destruct Hin|simpl; lia]. }
  exists ra, rb, ta, tb, ca, cb; repeat split; try assumption.
  - apply (Hoa kb vb (nth_error_In _ _ Hj) Hgb); congruence.
  - apply (Hob ka va (nth_error_In _ _ Hi) Hga); congruence.
  - lia.
  - lia.
Qed.

Lemma X6_toggles_exclude_each_other_witness :
  exists ra rb ta tb ca cb,
    nth_error two_sublayers_rules 0 = Some ra /\ manipulators ra = ta :: ca /\
    nth_error two_sublayers_rules 1 = Some rb /\ manipulators rb = tb :: cb /\
    is_toggle_of "o" ta /\ is_toggle_of "p" tb /\
    In (variable_if "hyper_sublayer_p" 0) (conditions ta) /\
    In (variable_if "hyper_sublayer_o" 0) (conditions tb) /\
    ~ mentions "hyper_sublayer_o" ta /\
    ~ mentions "hyper_sublayer_p" tb /\
    length (conditions ta) = 2 /\
    length (conditions tb) = 2.
Proof.
  apply (X6_toggles_exclude_each_other two_sublayers_map
           ["hyper_sublayer_o"; "hyper_sublayer_p"] two_sublayers_rules
           0 1 "o" "p"
           (lookup two_sublayers_map "o") (lookup two_sublayers_map "p")).
  - apply distinct_NoDup; reflexivity.
  - reflexivity.
  - reflexivity.
  - reflexivity.
  - reflexivity.
  - reflexivity.
  - reflexivity.
  - discriminate.
Defined.

(** X7: the rule of a direct entry, whatever the rest of the map.  It is
    described "Hyper Key + key" and holds one manipulator, which triggers
    on the key with any modifiers, carries the entry's [to] and
    [description], and is guarded by the master at 1 followed by every
    registry variable at 0: one condition more than the registry has
    variables. *)
Theorem X7_direct_entry_rule :
  forall (m : Props) (vars : list string) (rules : list JsValue)
         (i : nat) (key : KeyCode) (value : JsValue),
    allSubLayerVariables m = Ok vars ->
    createHyperSubLayers m = Ok rules ->
    nth_error m i = Some (key, value) ->
    is_direct_action value = true ->
    exists rule manipulator,
      nth_error rules i = Some rule /\
      get rule "description" = JString ("Hyper Key + " ++ key) /\
      manipulators rule = [manipulator] /\
      get manipulator "from" = from_any key /\
      get manipulator "to" = get value "to" /\
      get manipulator "description" = get value "description" /\
      conditions manipulator
        = variable_if "hyper" 1 :: map (fun v => variable_if v 0) vars /\
      length (conditions manipulator) = 1 + length vars.
Proof.
  intros m vars rules i key value Hvars Hrules Hm Hd.
  exact (direct_rule_shape m vars rules i key value Hvars Hrules Hm Hd).
Qed.

Lemma X7_direct_entry_rule_witness :
  exists rule manipulator,
    nth_error two_sublayers_rules 2 = Some rule /\
    get rule "description" = JString "Hyper Key + m" /\
    manipulators rule = [manipulator] /\
    get manipulator "from" = from_any "m" /\
    get manipulator "to" = JArray [shell "open -a Mail"] /\
    get manipulator "description" = JUndefined /\
    conditions manipulator
      = [ variable_if "hyper" 1;
          variable_if "hyper_sublayer_o" 0;
          variable_if "hyper_sublayer_p" 0 ] /\
    length (conditions manipulator) = 3.
Proof.
  exact (X7_direct_entry_rule two_sublayers_map
           ["hyper_sublayer_o"; "hyper_sublayer_p"] two_sublayers_rules
           2 "m" _ eq_refl eq_refl eq_refl eq_refl).
Defined.

(** X8: a sublayer key reused as one of its own command keys.  Both
    manipulators are emitted, the toggle first: among the command
    manipulators there is one with the toggle's own trigger, guarded by the
    sublayer's variable at 1. *)
Theorem X8_sublayer_key_as_own_command_key :
  forall (sublayer_key : KeyCode) (commands : Props) (vars : list string),
    In sublayer_key (map fst commands) ->
    exists toggle cmds m,
      createHyperSubLayer sublayer_key (JObject commands) vars
      = Ok (toggle :: cmds) /\
      is_toggle_of sublayer_key toggle /\
      In m cmds /\
      get m "from" = get toggle "from" /\
      conditions m
        = [variable_if (generateSubLayerVariableName sublayer_key) 1].
Proof.
  intros sublayer_key commands vars Hin.
  destruct (createHyperSubLayer_shape sublayer_key (JObject commands) vars
              (map fst commands) eq_refl)
    as (toggle & cmds & E & (_ & Hf & _ & _ & Ht & _) & _ & Hcmd).
  apply In_nth_error in Hin as [i Hi].
  destruct (Hcmd i sublayer_key Hi) as (m & Hm & _ & Hfm & Hc & _).
  exists toggle, cmds, m; repeat split; try assumption.
  - exact (nth_error_In _ _ Hm).
  - now rewrite Hf.
Qed.

Lemma X8_sublayer_key_as_own_command_key_witness :
  exists toggle cmds m,
    createHyperSubLayer "g" (JObject open_commands) []
    = Ok (toggle :: cmds) /\
    is_toggle_of "g" toggle /\
    In m cmds /\
    get m "from" = get toggle "from" /\
    conditions m = [variable_if "hyper_sublayer_g" 1].
Proof.
  apply (X8_sublayer_key_as_own_command_key "g" open_commands []).
  left; reflexivity.
Defined.

(** X9: every command manipulator can be reached and is released.  In any
    emitted rule, a manipulator after the first is guarded by exactly one
    condition "variable == 1", and the first manipulator of the same rule
    sets that very variable to 1 on key down and back to 0 after key up. *)
Theorem X9_command_variable_is_driven_by_its_toggle :
  forall (m : Props) (rules : list JsValue) (rule manipulator : JsValue),
    createHyperSubLayers m = Ok rules ->
    In rule rules ->
    In manipulator (tl (manipulators rule)) ->
    exists toggle x,
      hd_error (manipulators rule) = Some toggle /\
      conditions manipulator = [variable_if x 1] /\
      get toggle "to" = JArray [set_variable x 1] /\
      get toggle "to_after_key_up" = JArray [set_variable x 0].
Proof.
  intros m rules rule man Hrules Hrule Hman.
  rewrite (createHyperSubLayers_unfold m _ (allSubLayerVariables_eq m))
    in Hrules.
  remember (map generateSubLayerVariableName
              (filter (fun key => passes_filter (lookup m key)) (map fst m)))
    as vars eqn:Evars.
  destruct (map_r_In _ _ _ _ Hrules Hrule) as ([k v] & Hkv & Hk).
  destruct (js_in "to" v) as [[|]|] eqn:Hin.
  - destruct (entryRule_direct vars k v Hin) as (man0 & E & _).
    pose proof (eq_trans (eq_sym Hk) E) as Heq.
    inversion Heq; subst rule; destruct Hman.
  - destruct (entryRule_sublayer vars k v Hin) as (ms & Hms & E).
    pose proof (eq_trans (eq_sym Hk) E) as Heq.
    inversion Heq; subst rule.
    change (In man (tl ms)) in Hman.
    destruct (createHyperSubLayer_commands k v vars ms man Hms Hman)
      as [_ Hc].
    destruct (createHyperSubLayer_shape k v vars _ (js_in_keys v _ Hin))
      as (toggle & cmds & E' & (_ & _ & _ & Hup & Hto & _) & _).
    assert (ms = toggle :: cmds) by congruence; subst ms.
    exists toggle, (generateSubLayerVariableName k); auto.
  - pose proof (eq_trans (eq_sym Hk) (entryRule_throws vars k v Hin)).
    discriminate.
Qed.

Lemma X9_command_variable_is_driven_by_its_toggle_witness :
  exists toggle x,
    hd_error (manipulators (nth 1 two_sublayers_rules JUndefined))
    = Some toggle /\
    conditions
      (nth 1 (manipulators (nth 1 two_sublayers_rules JUndefined)) JUndefined)
    = [variable_if x 1] /\
    get toggle "to" = JArray [set_variable x 1] /\
    get toggle "to_after_key_up" = JArray [set_variable x 0].
Proof.
  apply (X9_command_variable_is_driven_by_its_toggle two_sublayers_map
           two_sublayers_rules).
  - reflexivity.
  - right; left; reflexivity.
  - left; reflexivity.
Defined.

(** ** [trim], [split] and [join] *)

Section TextFacts.
Import JsText.

Lemma append_nil_r (s : string) : s ++ EmptyString = s.
Proof. induction s as [|c s IH]; simpl; [reflexivity|now rewrite IH]. Qed.

Lemma append_assoc (a b c : string) : (a ++ b) ++ c = a ++ b ++ c.
Proof. induction a as [|x a IH]; simpl; [reflexivity|now rewrite IH]. Qed.

Lemma append_nonempty_r (a b : string) :
  b <> EmptyString -> a ++ b <> EmptyString.
Proof. destruct a; simpl; [auto|discriminate]. Qed.

Lemma trimStart_spec (s : string) :
  starts_with_whitespace (trimStart s) = false /\
  exists a, all_whitespace a = true /\ s = a ++ trimStart s.
Proof.
  induction s as [|c s [IH1 (a & Ha & IH2)]]; simpl.
  - split; [reflexivity|exists EmptyString; auto].
  - destruct (is_whitespace c) eqn:Hc.
    + split; [exact IH1|].
      exists (String c a); simpl; rewrite Hc, Ha; split; [reflexivity|].
      now rewrite <- IH2.
    + simpl; rewrite Hc; split; [reflexivity|].
      exists EmptyString; auto.
Qed.

Lemma trimEnd_spec (s : string) :
  ends_with_whitespace (trimEnd s) = false /\
  (starts_with_whitespace s = false ->
   starts_with_whitespace (trimEnd s) = false) /\
  exists b, all_whitespace b = true /\ s = trimEnd s ++ b.
Proof.
  induction s as [|c s (IH1 & _ & b & Hb & IH2)].
  - split; [reflexivity|]; split; [auto|].
    exists EmptyString; split; reflexivity.
  - cbn [trimEnd]; destruct (trimEnd s) as [|d r] eqn:E.
    + destruct (is_whitespace c) eqn:Hc.
      * split; [reflexivity|]; split; [reflexivity|].
        exists (String c b); split; [simpl; now rewrite Hc, Hb|].
        simpl; now rewrite IH2.
      * split; [simpl; exact Hc|]; split; [simpl; auto|].
        exists b; split; [exact Hb|]; simpl; now rewrite IH2.
    + split; [exact IH1|]; split; [simpl; auto|].
      exists b; split; [exact Hb|]; simpl; f_equal; exact IH2.
Qed.

(** [trim] removes a run of white space at each end and nothing else, and
    leaves no white space at either end. *)
Lemma trim_spec (s : string) :
  starts_with_whitespace (trim s) = false /\
  ends_with_whitespace (trim s) = false /\
  exists a b,
    all_whitespace a = true /\ all_whitespace b = true /\
    s = a ++ trim s ++ b.
Proof.
  unfold trim.
  destruct (trimStart_spec s) as (Hs & a & Ha & Es).
  destruct (trimEnd_spec (trimStart s)) as (He & Hs' & b & Hb & Ee).
  split; [auto|]; split; [exact He|].
  exists a, b; repeat split; try assumption.
  now rewrite <- Ee.
Qed.

Lemma trim_fixed (s : string) :
  starts_with_whitespace s = false ->
  ends_with_whitespace s = false ->
  trim s = s.
Proof.
  intros Hs He; unfold trim.
  assert (E : trimStart s = s).
  { destruct s as [|c r]; simpl in *; [reflexivity|now rewrite Hs]. }
  rewrite E; clear E Hs.
  induction s as [|c r IH]; [reflexivity|].
  simpl in *; destruct r as [|d r'].
  - simpl; now rewrite He.
  - rewrite (IH He); reflexivity.
Qed.

Lemma ends_with_whitespace_app (a b : string) :
  b <> EmptyString ->
  ends_with_whitespace (a ++ b) = ends_with_whitespace b.
Proof.
  intros Hb; induction a as [|c a IH]; [reflexivity|].
  simpl; destruct (a ++ b) eqn:E; [|exact IH].
  exfalso; exact (append_nonempty_r a b Hb E).
Qed.

Lemma contains_newline_app (a b : string) :
  contains_newline (a ++ b) = contains_newline a || contains_newline b.
Proof.
  induction a as [|c a IH]; simpl; [reflexivity|].
  now rewrite IH, orb_assoc.
Qed.

Lemma split_newline_pieces (s p : string) :
  In p (split_newline s) -> contains_newline p = false.
Proof.
  revert p; induction s as [|c s IH]; simpl; intros p Hp.
  - destruct Hp as [<-|[]]; reflexivity.
  - destruct (Ascii.eqb c newline) eqn:Hc.
    + destruct Hp as [<-|Hp]; [reflexivity|auto].
    + destruct (split_newline s) as [|q qs].
      * destruct Hp as [<-|[]]; simpl; now rewrite Hc.
      * destruct Hp as [<-|Hp]; simpl.
        -- rewrite Hc; apply IH; now left.
        -- apply IH; now right.
Qed.

Lemma join_singleton (sep x : string) : join sep [x] = x.
Proof. reflexivity. Qed.

Lemma includes_In (x : string) (l : list string) :
  includes x l = true <-> In x l.
Proof. apply existsb_eqb_In. Qed.

End TextFacts.

(** ** Properties of the helper functions *)

(** X10: what the toggle of a sublayer key does when the key is tapped
    alone is what [standardHyperkey] binds to that key: the [to_if_alone]
    of the toggle is the [to] of [standardHyperkey(sublayer_key)]. *)
Theorem X10_tap_alone_is_standardHyperkey :
  forall (sublayer_key : KeyCode) (commands : Props) (vars : list string),
  exists toggle cmds,
    createHyperSubLayer sublayer_key (JObject commands) vars
    = Ok (toggle :: cmds) /\
    get toggle "to_if_alone" = get (Utils.standardHyperkey sublayer_key) "to".
Proof.
  intros sublayer_key commands vars.
  destruct (createHyperSubLayer_shape sublayer_key (JObject commands) vars
              (map fst commands) eq_refl)
    as (toggle & cmds & E & (_ & _ & Halone & _) & _).
  exists toggle, cmds; split; [exact E|].
  rewrite Halone; reflexivity.
Qed.

(** X16: [shell_command] emits one shell command per element of its
    argument, in order; each is the element with the white space at its
    two ends removed and nothing else changed, so that no emitted command
    starts or ends with white space; the description joins the elements as
    given, untrimmed, with [" && "]. *)
Theorem X16_shell_command_trims_each_command :
  forall commands : list string,
  exists to,
    get (Utils.shell_command commands) "to" = JArray to /\
    length to = length commands /\
    get (Utils.shell_command commands) "description"
    = JString (JsText.join " && " commands) /\
    forall i command,
      nth_error commands i = Some command ->
      exists t a b,
        nth_error to i = Some (shell t) /\
        command = a ++ t ++ b /\
        all_whitespace a = true /\ all_whitespace b = true /\
        starts_with_whitespace t = false /\
        ends_with_whitespace t = false.
Proof.
  intros commands; eexists; split; [reflexivity|].
  split; [apply length_map|]; split; [reflexivity|].
  intros i command Hi.
  destruct (trim_spec command) as (Hs & He & a & b & Ha & Hb & E).
  exists (JsText.trim command), a, b; repeat split; try assumption.
  exact (map_nth_error _ _ _ Hi).
Qed.

Lemma X16_shell_command_trims_each_command_witness :
  exists to,
    get (Utils.shell_command ["  ls -l "; "pwd"]) "to" = JArray to /\
    exists t a b,
      nth_error to 0 = Some (shell t) /\
      "  ls -l " = a ++ t ++ b /\
      all_whitespace a = true /\ all_whitespace b = true /\
      starts_with_whitespace t = false /\
      ends_with_whitespace t = false.
Proof.
  destruct (X16_shell_command_trims_each_command ["  ls -l "; "pwd"])
    as (to & Hto & _ & _ & H).
  exists to; split; [exact Hto|].
  exact (H 0 "  ls -l " eq_refl).
Defined.

Lemma includes_ext (x : string) (l l' : list string) :
  (In x l <-> In x l') -> JsText.includes x l = JsText.includes x l'.
Proof.
  intros H; destruct (JsText.includes x l') eqn:E.
  - apply includes_In, H, includes_In, E.
  - destruct (JsText.includes x l) eqn:E'; [|reflexivity].
    apply includes_In, H, includes_In in E'; congruence.
Qed.

(** X12: [shortcut] looks at its modifier list only to see which of the
    seven names it knows occur in it.  Two lists in which the same known
    names occur give the same result: order and repetition do not matter,
    and a name [shortcut] does not know is ignored. *)
Theorem X12_shortcut_depends_on_known_modifiers_only :
  forall (key : string) (modifiers modifiers' : list string),
    (forall name, In name modifier_names ->
                  (In name modifiers <-> In name modifiers')) ->
    Utils.shortcut key modifiers = Utils.shortcut key modifiers'.
Proof.
  intros key mods mods' H.
  unfold Utils.shortcut, Utils.shortcut_script; do 3 f_equal.
  unfold Utils.shortcut_mods.
  rewrite (includes_ext "cmd" mods mods'),
    (includes_ext "command" mods mods'),
    (includes_ext "control" mods mods'),
    (includes_ext "ctrl" mods mods'),
    (includes_ext "alt" mods mods'),
    (includes_ext "option" mods mods'),
    (includes_ext "shift" mods mods');
    try reflexivity; apply H; simpl; tauto.
Qed.

Lemma X12_shortcut_depends_on_known_modifiers_only_witness :
  Utils.shortcut "a" ["shift"; "hyper"; "cmd"; "shift"]
  = Utils.shortcut "a" ["cmd"; "shift"].
Proof.
  apply X12_shortcut_depends_on_known_modifiers_only.
  intros name Hname; simpl in Hname; simpl.
  intuition (subst; try discriminate; auto).
Defined.

Ltac nonempty :=
  first [ assumption | discriminate | apply append_nonempty_r; nonempty ].

Lemma shortcut_script_edges (key : string) (modifiers : list string) :
  starts_with_whitespace (Utils.shortcut_script key modifiers) = false /\
  ends_with_whitespace (Utils.shortcut_script key modifiers) = false.
Proof.
  split; [reflexivity|].
  unfold Utils.shortcut_script.
  repeat (rewrite ends_with_whitespace_app;
          [|repeat apply append_nonempty_r; discriminate]).
  reflexivity.
Qed.

(** X14: whatever the key and the modifiers, [shortcut] yields exactly one
    shell command, the [osascript] line it built, and the description is
    that same line: trimming changes nothing, because the line begins
    with [osascript] and ends with a single quote. *)
Theorem X14_shortcut_single_command_equals_description :
  forall (key : string) (modifiers : list string),
    to_list (Utils.shortcut key modifiers)
    = [shell (Utils.shortcut_script key modifiers)] /\
    get (Utils.shortcut key modifiers) "description"
    = JString (Utils.shortcut_script key modifiers) /\
    exists rest,
      Utils.shortcut_script key modifiers
      = "osascript -e 'tell application " ++ rest ++ "'".
Proof.
  intros key mods.
  destruct (shortcut_script_edges key mods) as [Hs He].
  split; [|split].
  - unfold to_list, Utils.shortcut, Utils.shell_command, get, shell; simpl.
    now rewrite (trim_fixed _ Hs He).
  - reflexivity.
  - exists (dquote ++ "System Events" ++ dquote ++ " to "
            ++ Utils.shortcut_keystroke key
            ++ (if negb (Nat.eqb (length (Utils.shortcut_mods mods)) 0)
                then " using {"
                     ++ JsText.join ", " (Utils.shortcut_mods mods) ++ "}"
                else EmptyString)).
    unfold Utils.shortcut_script; cbv zeta.
    now rewrite !append_assoc.
Qed.

(** X15: the key-code table of [shortcut].  A key from [f1] to [f20] is
    sent by key code, never typed as text, and no two of these keys share
    a code; any other key, [f21] to [f24] included, is typed as the text of
    its name between double quotes. *)
Theorem X15_shortcut_function_key_table :
  forall key : string,
    (In key function_keys ->
     (exists code, Utils.shortcut_keystroke key = " key code " ++ code) /\
     forall key',
       In key' function_keys ->
       Utils.shortcut_keystroke key' = Utils.shortcut_keystroke key ->
       key' = key) /\
    (~ In key function_keys ->
     Utils.shortcut_keystroke key = "keystroke " ++ dquote ++ key ++ dquote).
Proof.
  intros key; split.
  - intros Hkey; split.
    + simpl in Hkey.
      repeat (destruct Hkey as [<-|Hkey]; [eexists; reflexivity|]).
      destruct Hkey.
    + intros key' Hkey' E.
      assert (Hall :
        forallb
          (fun k1 =>
             forallb
               (fun k2 =>
                  implb
                    (Utils.shortcut_keystroke k1 =? Utils.shortcut_keystroke k2)
                    (k1 =? k2))
               function_keys)
          function_keys = true) by (vm_compute; reflexivity).
      rewrite forallb_forall in Hall; specialize (Hall key' Hkey').
      rewrite forallb_forall in Hall; specialize (Hall key Hkey).
      rewrite E, String.eqb_refl in Hall; now apply String.eqb_eq.
  - intros Hkey; unfold Utils.shortcut_keystroke.
    repeat match goal with
    | |- context [key =? ?s] =>
        replace (key =? s) with false
          by (symmetry; apply String.eqb_neq; intros ->; apply Hkey;
              simpl; tauto)
    end.
    reflexivity.
Qed.

Lemma X15_shortcut_function_key_table_witness :
  (exists code, Utils.shortcut_keystroke "f5" = " key code " ++ code) /\
  Utils.shortcut_keystroke "f21" = "keystroke " ++ dquote ++ "f21" ++ dquote.
Proof.
  split.
  - apply (X15_shortcut_function_key_table "f5"); simpl; tauto.
  - apply (X15_shortcut_function_key_table "f21"); simpl.
    intuition discriminate.
Defined.

Lemma fold_left_app_In {A B} (g : A -> list B) (l : list A) (acc : list B)
    (y : B) :
  In y (fold_left (fun acc x => (acc ++ g x)%list) l acc) ->
  In y acc \/ exists x, In x l /\ In y (g x).
Proof.
  revert acc; induction l as [|x l IH]; simpl; intros acc H; [now left|].
  destruct (IH _ H) as [Hacc|(x' & Hx' & Hy)].
  - apply in_app_iff in Hacc as [Hacc|Hy]; [now left|right; eauto].
  - right; eauto.
Qed.

(** X17: the template tag [shell] never emits a blank command.  Every
    shell command in its result is a non-empty piece of one line of the
    template: it holds no line feed and neither starts nor ends with white
    space. *)
Theorem X17_shell_emits_no_blank_command :
  forall (strings values : list string) (cmd : JsValue),
    In cmd (to_list (Utils.shell strings values)) ->
    exists t,
      cmd = shell t /\
      t <> EmptyString /\
      contains_newline t = false /\
      starts_with_whitespace t = false /\
      ends_with_whitespace t = false.
Proof.
  intros strings values cmd Hcmd.
  change (In cmd
            (map (fun command => shell (JsText.trim command))
               (Utils.shell_lines strings values))) in Hcmd.
  apply in_map_iff in Hcmd as (line & <- & Hline).
  exists (JsText.trim line); split; [reflexivity|].
  apply fold_left_app_In in Hline as [[]|([str i] & _ & Hline)].
  apply filter_In in Hline as [Hpiece Hblank].
  apply negb_true_iff, String.eqb_neq in Hblank.
  apply split_newline_pieces in Hpiece.
  destruct (trim_spec line) as (Hs & He & a & b & _ & _ & E).
  repeat split; try assumption.
  rewrite E, !contains_newline_app in Hpiece.
  apply orb_false_iff in Hpiece as [_ Hpiece].
  now apply orb_false_iff in Hpiece as [Hpiece _].
Qed.

Lemma X17_shell_emits_no_blank_command_witness :
  exists t,
    shell "ls x" = shell t /\
    t <> EmptyString /\
    contains_newline t = false /\
    starts_with_whitespace t = false /\
    ends_with_whitespace t = false.
Proof.
  apply (X17_shell_emits_no_blank_command
           [ "  echo a " ++ String JsText.newline " ls "; " -l" ] ["x"]).
  right; left; reflexivity.
Defined.

Section HostFacts.
Variable encodeURIComponent : string -> string.
Variable JSON_stringify : JsValue -> string.

Lemma raycast_notification_command_end (text : string) :
  ends_with_whitespace
    (Utils.raycast_notification_command encodeURIComponent JSON_stringify text)
  = false /\
  Utils.raycast_notification_command encodeURIComponent JSON_stringify text
  <> EmptyString.
Proof.
  unfold Utils.raycast_notification_command; split; [|discriminate].
  repeat (rewrite ends_with_whitespace_app;
          [|repeat apply append_nonempty_r; discriminate]).
  reflexivity.
Qed.

(** X18: [switch_karabiner_profile] falls back to its default message
    both when no message is given and when the message is the empty
    string; in every case it yields exactly one shell command, which is
    also its description. *)
Theorem X18_switch_profile_default_message :
  forall name : string,
    Utils.switch_karabiner_profile encodeURIComponent JSON_stringify name None
    = Utils.switch_karabiner_profile encodeURIComponent JSON_stringify name
        (Some ("Switched karabiner profile: " ++ name)) /\
    Utils.switch_karabiner_profile encodeURIComponent JSON_stringify name
      (Some EmptyString)
    = Utils.switch_karabiner_profile encodeURIComponent JSON_stringify name
        None /\
    forall message,
    exists command,
      to_list
        (Utils.switch_karabiner_profile encodeURIComponent JSON_stringify
           name message)
      = [shell command] /\
      get
        (Utils.switch_karabiner_profile encodeURIComponent JSON_stringify
           name message)
        "description"
      = JString command.
Proof.
  intros name; split; [reflexivity|]; split; [reflexivity|].
  intros message.
  set (notify :=
         Utils.raycast_notification_command encodeURIComponent JSON_stringify
           (Utils.or_default message
              ("Switched karabiner profile: " ++ name))).
  set (command :=
         "'/Library/Application Support/org.pqrs/Karabiner-Elements/bin/karabiner_cli' --select-profile '"
         ++ name ++ "' && " ++ notify).
  exists command; split; [|reflexivity].
  change (to_list
            (Utils.switch_karabiner_profile encodeURIComponent JSON_stringify
               name message))
    with [shell (JsText.trim command)].
  rewrite trim_fixed; [reflexivity|reflexivity|].
  destruct (raycast_notification_command_end
              (Utils.or_default message
                 ("Switched karabiner profile: " ++ name))) as [He Hne].
  fold notify in He, Hne; unfold command.
  repeat (rewrite ends_with_whitespace_app; [|nonempty]).
  exact He.
Qed.

End HostFacts.

(** ** The fallback table *)

Section AssignFacts.
Import JsText.

Lemma lookup_absent (o : Props) (k : string) :
  ~ In k (map fst o) -> lookup o k = JUndefined.
Proof.
  unfold lookup; induction o as [|[a b] r IH]; simpl; intros H; [reflexivity|].
  destruct (a =? k) eqn:E.
  - apply String.eqb_eq in E; subst; exfalso; apply H; now left.
  - apply IH; intros Hin; apply H; now right.
Qed.

Lemma keys_set_prop (k : string) (v : JsValue) (o : Props) :
  In k (map fst o) -> map fst (set_prop k v o) = map fst o.
Proof.
  induction o as [|[a b] r IH]; simpl; intros H; [destruct H|].
  destruct (a =? k) eqn:E; simpl.
  - apply String.eqb_eq in E; now subst.
  - f_equal; apply IH; destruct H as [->|H]; [|exact H].
    rewrite String.eqb_refl in E; discriminate.
Qed.

Lemma keys_insert_index (n : N) (k k' : string) (v : JsValue) (o : Props) :
  In k' (map fst (insert_index n k v o)) <-> k' = k \/ In k' (map fst o).
Proof.
  induction o as [|[a b] r IH]; simpl; [intuition|].
  destruct (array_index a) as [n'|]; [destruct (n' <? n)%N|]; simpl;
    rewrite ?IH; intuition.
Qed.

Lemma wf_insert_index (n : N) (k : string) (v : JsValue) (o : Props) :
  wf_object o -> ~ In k (map fst o) -> wf_object (insert_index n k v o).
Proof.
  unfold wf_object; induction o as [|[a b] r IH]; simpl; intros Hwf Hk.
  - constructor; [intros []|constructor].
  - inversion Hwf as [|? ? Ha Hr]; subst.
    assert (Hcons : NoDup (k :: a :: map fst r)).
    { constructor; [exact Hk|exact Hwf]. }
    destruct (array_index a) as [n'|]; [destruct (n' <? n)%N|]; simpl;
      try exact Hcons.
    constructor.
    + rewrite keys_insert_index; intros [->|Hin]; [apply Hk; now left|auto].
    + apply IH; [exact Hr|intros Hin; apply Hk; now right].
Qed.

Lemma lookup_insert_index (n : N) (k k' : string) (v : JsValue) (o : Props) :
  ~ In k (map fst o) ->
  lookup (insert_index n k v o) k' = if k =? k' then v else lookup o k'.
Proof.
  unfold lookup; induction o as [|[a b] r IH]; simpl; intros Hk.
  - destruct (k =? k'); reflexivity.
  - destruct (array_index a) as [n'|]; [destruct (n' <? n)%N|]; simpl;
      try (destruct (k =? k'); reflexivity).
    destruct (a =? k') eqn:Ea.
    + apply String.eqb_eq in Ea; subst a.
      destruct (k =? k') eqn:Ek; [|reflexivity].
      apply String.eqb_eq in Ek; subst; exfalso; apply Hk; now left.
    + apply IH; intros Hin; apply Hk; now right.
Qed.

Lemma lookup_append (k k' : string) (v : JsValue) (o : Props) :
  ~ In k (map fst o) ->
  lookup (o ++ [(k, v)])%list k' = if k =? k' then v else lookup o k'.
Proof.
  unfold lookup; induction o as [|[a b] r IH]; simpl; intros Hk.
  - destruct (k =? k'); reflexivity.
  - destruct (a =? k') eqn:Ea.
    + apply String.eqb_eq in Ea; subst a.
      destruct (k =? k') eqn:Ek; [|reflexivity].
      apply String.eqb_eq in Ek; subst; exfalso; apply Hk; now left.
    + apply IH; intros Hin; apply Hk; now right.
Qed.

(** Assignment to a property other than ["__proto__"]: the object keeps
    distinct keys, gains the key if it is new, and reads back the value
    under that key and the old values elsewhere. *)
Lemma assign_facts (k : string) (v : JsValue) (o : Props) :
  k <> "__proto__" ->
  wf_object o ->
  wf_object (assign k v o) /\
  (forall k', In k' (map fst (assign k v o)) <-> k' = k \/ In k' (map fst o)) /\
  (forall k', lookup (assign k v o) k' = if k =? k' then v else lookup o k').
Proof.
  intros Hproto Hwf; unfold assign.
  apply String.eqb_neq in Hproto; rewrite Hproto.
  destruct (existsb (String.eqb k) (map fst o)) eqn:E.
  - apply existsb_eqb_In in E.
    split; [|split].
    + unfold wf_object; now rewrite keys_set_prop.
    + intros k'; rewrite keys_set_prop by exact E.
      split; [auto|intros [->|H]; assumption].
    + intros k'; apply lookup_set_prop.
  - assert (Hk : ~ In k (map fst o)).
    { intros Hin; apply existsb_eqb_In in Hin; congruence. }
    destruct (array_index k) as [n|].
    + split; [now apply wf_insert_index|]; split.
      * intros k'; apply keys_insert_index.
      * intros k'; now apply lookup_insert_index.
    + split; [|split].
      * unfold wf_object; rewrite map_app; simpl.
        apply NoDup_app; [exact Hwf|constructor; [intros []|constructor]|].
        intros x Hx [<-|[]]; exact (Hk Hx).
      * intros k'; rewrite map_app, in_app_iff; simpl; intuition.
      * intros k'; now apply lookup_append.
Qed.

Lemma assign_proto (v : JsValue) (o : Props) : assign "__proto__" v o = o.
Proof. reflexivity. Qed.

Lemma fill_fallbacks_from (key_codes : list KeyCode) (o : Props)
    (Q : string -> Prop) :
  wf_object o ->
  (forall k, In k (map fst o) <-> Q k) ->
  (forall k, Q k -> lookup o k = Utils.standardHyperkey k) ->
  let r :=
    fold_left
      (fun fallbacks key_code =>
         assign key_code (Utils.standardHyperkey key_code) fallbacks)
      key_codes o in
  wf_object r /\
  (forall k,
      In k (map fst r) <-> Q k \/ (In k key_codes /\ k <> "__proto__")) /\
  (forall k,
      Q k \/ (In k key_codes /\ k <> "__proto__") ->
      lookup r k = Utils.standardHyperkey k).
Proof.
  revert o Q; induction key_codes as [|kc rest IH]; simpl; intros o Q Hwf Hk Hl.
  - split; [exact Hwf|]; split.
    + intros k; rewrite Hk; tauto.
    + intros k [H|[[] _]]; now apply Hl.
  - destruct (String.eqb_spec kc "__proto__") as [->|Hproto].
    + rewrite assign_proto.
      destruct (IH o Q Hwf Hk Hl) as (H1 & H2 & H3).
      split; [exact H1|]; split.
      * intros k; rewrite H2; intuition congruence.
      * intros k Hq; apply H3; intuition congruence.
    + destruct (assign_facts kc (Utils.standardHyperkey kc) o Hproto Hwf)
        as (Hwf' & Hk' & Hl').
      destruct (IH _ (fun k => Q k \/ k = kc) Hwf') as (H1 & H2 & H3).
      * intros k; rewrite Hk', Hk; tauto.
      * intros k Hq; rewrite Hl'.
        destruct (kc =? k) eqn:E.
        -- apply String.eqb_eq in E; now subst.
        -- destruct Hq as [Hq | ->]; [now apply Hl|].
           rewrite String.eqb_refl in E; discriminate.
      * split; [exact H1|]; split.
        -- intros k; rewrite H2; intuition congruence.
        -- intros k Hq; apply H3; intuition congruence.
Qed.

End AssignFacts.

Lemma fill_fallbacks_facts (key_codes : list KeyCode) :
  wf_object (Utils.fill_fallbacks key_codes) /\
  (forall k,
      In k (map fst (Utils.fill_fallbacks key_codes))
      <-> In k key_codes /\ k <> "__proto__") /\
  (forall k,
      In k key_codes -> k <> "__proto__" ->
      lookup (Utils.fill_fallbacks key_codes) k = Utils.standardHyperkey k).
Proof.
  destruct (fill_fallbacks_from key_codes [] (fun _ => False))
    as (Hwf & Hk & Hl).
  - constructor.
  - intros k; simpl; tauto.
  - intros k [].
  - split; [exact Hwf|]; split.
    + intros k; unfold Utils.fill_fallbacks; rewrite Hk; tauto.
    + intros k Hin Hne; apply Hl; now right.
Qed.

(** X11: the table a [forEach] over a list of key codes fills, as
    [fallbacks] is filled.  Its own properties have distinct keys, which
    are the key codes of the list other than ["__proto__"], however often
    a code is listed; the own property under such a key is
    [standardHyperkey] of that key. *)
Theorem X11_fallback_table_lookup :
  forall key_codes : list KeyCode,
    wf_object (Utils.fill_fallbacks key_codes) /\
    (forall k,
        In k (map fst (Utils.fill_fallbacks key_codes))
        <-> In k key_codes /\ k <> "__proto__") /\
    (forall k,
        In k key_codes -> k <> "__proto__" ->
        lookup (Utils.fill_fallbacks key_codes) k = Utils.standardHyperkey k).
Proof.
  intros key_codes.
  destruct (fill_fallbacks_from key_codes [] (fun _ => False))
    as (Hwf & Hk & Hl).
  - constructor.
  - intros k; simpl; tauto.
  - intros k [].
  - split; [exact Hwf|]; split.
    + intros k; unfold Utils.fill_fallbacks; rewrite Hk; tauto.
    + intros k Hin Hne; apply Hl; now right.
Qed.

Lemma X11_fallback_table_lookup_witness :
  lookup Utils.fallbacks "hyphen" = Utils.standardHyperkey "hyphen" /\
  lookup (Utils.fill_fallbacks ["a"; "__proto__"; "a"]) "a"
  = Utils.standardHyperkey "a".
Proof.
  split.
  - destruct (X11_fallback_table_lookup Utils.fallback_key_codes)
      as (_ & _ & Hin).
    apply Hin; [|discriminate].
    unfold Utils.fallback_key_codes; do 10 right; left; reflexivity.
  - destruct (X11_fallback_table_lookup ["a"; "__proto__"; "a"])
      as (_ & _ & Hin).
    apply Hin; [left; reflexivity|discriminate].
Defined.

Lemma filter_none {A} (p : A -> bool) (l : list A) :
  (forall x, In x l -> p x = false) -> filter p l = [].
Proof.
  induction l as [|a r IH]; simpl; intros H; [reflexivity|].
  rewrite (H a (or_introl eq_refl)); apply IH; intros; apply H; now right.
Qed.

Lemma fill_fallbacks_entries (key_codes : list KeyCode) (k : string)
    (v : JsValue) :
  In (k, v) (Utils.fill_fallbacks key_codes) ->
  In k key_codes /\ v = Utils.standardHyperkey k.
Proof.
  intros Hin.
  destruct (fill_fallbacks_facts key_codes) as (Hwf & Hk & Hl).
  assert (Hkc : In k key_codes /\ k <> "__proto__").
  { apply Hk; change k with (fst (k, v)); now apply in_map. }
  destruct Hkc as [Hkc Hne]; split; [exact Hkc|].
  rewrite <- (lookup_In _ k v Hwf Hin); now apply Hl.
Qed.

(** X20: a table of fallbacks compiled on its own.  No property
    contributes a state variable, and the rules follow the properties one
    for one: the rule at the position of a property is the direct rule of
    that property's key, whose single manipulator triggers on the key,
    emits the key with the four hyper modifiers, and is guarded by the
    master condition alone. *)
Theorem X20_fallback_table_compiles_to_master_only_rules :
  forall key_codes : list KeyCode,
    allSubLayerVariables (Utils.fill_fallbacks key_codes) = Ok [] /\
    exists rules,
      createHyperSubLayers (Utils.fill_fallbacks key_codes) = Ok rules /\
      length rules = length (Utils.fill_fallbacks key_codes) /\
      forall i key value,
        nth_error (Utils.fill_fallbacks key_codes) i = Some (key, value) ->
        In key key_codes /\
        exists rule manipulator,
          nth_error rules i = Some rule /\
          get rule "description" = JString ("Hyper Key + " ++ key) /\
          manipulators rule = [manipulator] /\
          get manipulator "from" = from_any key /\
          get manipulator "to" = JArray [hyper_key key] /\
          conditions manipulator = [variable_if "hyper" 1].
Proof.
  intros key_codes.
  set (m := Utils.fill_fallbacks key_codes).
  destruct (fill_fallbacks_facts key_codes) as (Hwf & _).
  fold m in Hwf.
  assert (Hvars : allSubLayerVariables m = Ok []).
  { rewrite (allSubLayerVariables_wf m Hwf), filter_none; [reflexivity|].
    intros [k v] Hin; destruct (fill_fallbacks_entries _ k v Hin) as [_ ->].
    reflexivity. }
  split; [exact Hvars|].
  assert (Hobj : forallb (fun p => is_binding_entry (snd p)) m = true).
  { apply forallb_forall; intros [k v] Hin.
    destruct (fill_fallbacks_entries _ k v Hin) as [_ ->]; reflexivity. }
  destruct (createHyperSubLayers_total m Hobj) as [rules Hrules].
  exists rules; split; [exact Hrules|].
  rewrite (createHyperSubLayers_unfold m [] Hvars) in Hrules.
  split; [exact (map_r_length _ _ _ Hrules)|].
  intros i k v Hi.
  destruct (fill_fallbacks_entries _ k v (nth_error_In _ _ Hi)) as [Hkc ->].
  split; [exact Hkc|].
  destruct (map_r_nth _ _ _ _ _ Hrules Hi) as (rule & Hr & Hk).
  destruct (entryRule_direct [] k (Utils.standardHyperkey k) eq_refl)
    as (man & E & _ & Hf & Hg & Hpass).
  pose proof (eq_trans (eq_sym Hk) E) as Heq; inversion Heq; subst rule.
  eexists; exists man; split; [exact Hr|].
  repeat split; try assumption.
  rewrite (Hpass "to" eq_refl); reflexivity.
Qed.

(** X19: a command built with [open] inside a sublayer.  The command
    manipulator runs one ["open <target>"] shell command per target, in
    order, is described ["Open "] followed by the targets joined with
    [" & "], and is guarded by the sublayer's own variable at 1; with
    [app(name)] the one target is [-a 'name.app']. *)
Theorem X19_open_command_in_sublayer :
  forall (sublayer_key command_key : KeyCode) (what vars : list string),
  exists toggle m,
    createHyperSubLayer sublayer_key
      (JObject [ (command_key, Utils.open what) ]) vars
    = Ok [toggle; m] /\
    get m "from" = from_any command_key /\
    get m "to" = JArray (map (fun w => shell ("open " ++ w)) what) /\
    get m "description" = JString ("Open " ++ JsText.join " & " what) /\
    conditions m
      = [variable_if (generateSubLayerVariableName sublayer_key) 1] /\
    forall name,
      what = ["-a '" ++ name ++ ".app'"] ->
      Utils.open what = Utils.app name /\
      get m "to" = JArray [shell ("open -a '" ++ name ++ ".app'")].
Proof.
  intros sublayer_key command_key what vars.
  destruct (createHyperSubLayer_shape sublayer_key
              (JObject [ (command_key, Utils.open what) ]) vars
              [command_key] eq_refl)
    as (toggle & cmds & E & _ & Hlen & Hcmd).
  destruct (Hcmd 0 command_key eq_refl) as (m & Hm & _ & Hf & Hc & Hpass).
  destruct cmds as [|m' [|? ?]]; try discriminate.
  inversion Hm; subst m'.
  assert (Hget : get (JObject [ (command_key, Utils.open what) ]) command_key
                 = Utils.open what).
  { unfold get, lookup; simpl; now rewrite String.eqb_refl. }
  assert (Hto : get m "to"
                = JArray (map (fun w => shell ("open " ++ w)) what)).
  { rewrite (Hpass "to" eq_refl), Hget; reflexivity. }
  exists toggle, m; repeat split; try assumption.
  - rewrite (Hpass "description" eq_refl), Hget; reflexivity.
  - now subst what.
  - rewrite Hto; now subst what.
Qed.

Lemma X19_open_command_in_sublayer_witness :
  exists toggle m,
    createHyperSubLayer "o"
      (JObject [ ("s", Utils.open ["-a 'Slack.app'"]) ]) []
    = Ok [toggle; m] /\
    Utils.open ["-a 'Slack.app'"] = Utils.app "Slack" /\
    get m "to" = JArray [shell "open -a 'Slack.app'"].
Proof.
  destruct (X19_open_command_in_sublayer "o" "s" ["-a 'Slack.app'"] [])
    as (toggle & m & E & _ & _ & _ & _ & H).
  exists toggle, m; split; [exact E|].
  exact (H "Slack" eq_refl).
Defined.

Lemma X20_fallback_table_compiles_to_master_only_rules_witness :
  allSubLayerVariables Utils.fallbacks = Ok [] /\
  exists rules,
    createHyperSubLayers Utils.fallbacks = Ok rules /\
    length rules = 87 /\
    exists rule manipulator,
      nth_error rules 10 = Some rule /\
      get rule "description" = JString "Hyper Key + hyphen" /\
      manipulators rule = [manipulator] /\
      get manipulator "from" = from_any "hyphen" /\
      get manipulator "to" = JArray [hyper_key "hyphen"] /\
      conditions manipulator = [variable_if "hyper" 1].
Proof.
  destruct (X20_fallback_table_compiles_to_master_only_rules
              Utils.fallback_key_codes) as (Hvars & rules & Hrules & Hlen & H).
  split; [exact Hvars|].
  exists rules; split; [exact Hrules|].
  split; [rewrite Hlen; vm_compute; reflexivity|].
  assert (Hi : nth_error (Utils.fill_fallbacks Utils.fallback_key_codes) 10
               = Some ("hyphen", Utils.standardHyperkey "hyphen"))
    by (vm_compute; reflexivity).
  exact (proj2 (H 10 "hyphen" _ Hi)).
Defined.

(** X13: without any modifier name that [shortcut] knows, the script has
    no [using] clause: it is the bare keystroke of the key. *)
Theorem X13_shortcut_without_known_modifier :
  forall (key : string) (modifiers : list string),
    (forall name, In name modifier_names -> ~ In name modifiers) ->
    Utils.shortcut_script key modifiers
    = "osascript -e 'tell application " ++ dquote ++ "System Events" ++ dquote
      ++ " to " ++ Utils.shortcut_keystroke key ++ "'".
Proof.
  intros key mods H.
  assert (Hno : forall name, In name modifier_names ->
                             JsText.includes name mods = false).
  { intros name Hname; destruct (JsText.includes name mods) eqn:E;
      [|reflexivity].
    apply includes_In in E; now elim (H name Hname). }
  unfold Utils.shortcut_script, Utils.shortcut_mods.
  rewrite (Hno "cmd"), (Hno "command"), (Hno "control"), (Hno "ctrl"),
    (Hno "alt"), (Hno "option"), (Hno "shift") by (simpl; tauto).
  reflexivity.
Qed.

Lemma X13_shortcut_without_known_modifier_witness :
  Utils.shortcut_script "a" ["hyper"]
  = "osascript -e 'tell application " ++ dquote ++ "System Events" ++ dquote
    ++ " to " ++ Utils.shortcut_keystroke "a" ++ "'".
Proof.
  apply X13_shortcut_without_known_modifier.
  intros name Hname [<-|[]]; simpl in Hname.
  intuition discriminate.
Defined.

(** X21: a [basicRemap] bound to a top-level key.  In any map with
    distinct keys it contributes no state variable and compiles to a direct
    rule whose one manipulator emits the remapped key code, guarded by the
    master and the registry.  A modifier list, even an empty one, is
    passed on as the [modifiers] array; only an absent list leaves the
    field out. *)
Theorem X21_basicRemap_as_top_level_entry :
  forall (m : Props) (vars : list string) (rules : list JsValue) (i : nat)
         (key key_code : KeyCode) (modifiers : option (list string)),
    wf_object m ->
    allSubLayerVariables m = Ok vars ->
    createHyperSubLayers m = Ok rules ->
    nth_error m i = Some (key, Utils.basicRemap key_code modifiers) ->
    ~ In (generateSubLayerVariableName key) vars /\
    exists rule manipulator,
      nth_error rules i = Some rule /\
      manipulators rule = [manipulator] /\
      get manipulator "from" = from_any key /\
      get manipulator "to"
      = JArray
          [ JObject
              (("key_code", JString key_code)
               :: match modifiers with
                  | Some l => [ ("modifiers", JArray (map JString l)) ]
                  | None => []
                  end) ] /\
      conditions manipulator
      = variable_if "hyper" 1 :: map (fun v => variable_if v 0) vars.
Proof.
  intros m vars rules i key key_code modifiers Hwf Hvars Hrules Hm.
  assert (Hdeg : is_degenerate (Utils.basicRemap key_code modifiers) = true)
    by (destruct modifiers; reflexivity).
  assert (Hdir : is_direct_action (Utils.basicRemap key_code modifiers) = true)
    by (destruct modifiers; reflexivity).
  split.
  - exact (registry_excludes_degenerate m vars key _ Hwf Hvars
             (nth_error_In _ _ Hm) Hdeg).
  - destruct (direct_rule_shape m vars rules i key _ Hvars Hrules Hm Hdir)
      as (rule & man & Hr & _ & Hms & Hf & Hto & _ & Hg & _).
    exists rule, man; repeat split; try assumption.
    rewrite Hto; destruct modifiers; reflexivity.
Qed.

Lemma X21_basicRemap_as_top_level_entry_witness :
  ~ In "hyper_sublayer_h" [] /\
  exists rule manipulator,
    nth_error
      (rules_of [ ("h", Utils.basicRemap "left_arrow" (Some [])) ]) 0
    = Some rule /\
    manipulators rule = [manipulator] /\
    get manipulator "from" = from_any "h" /\
    get manipulator "to"
    = JArray
        [ JObject
            [ ("key_code", JString "left_arrow"); ("modifiers", JArray []) ] ] /\
    conditions manipulator = [variable_if "hyper" 1].
Proof.
  apply (X21_basicRemap_as_top_level_entry
           [ ("h", Utils.basicRemap "left_arrow" (Some [])) ] []
           (rules_of [ ("h", Utils.basicRemap "left_arrow" (Some [])) ])
           0 "h" "left_arrow" (Some [])).
  - apply distinct_NoDup; reflexivity.
  - reflexivity.
  - reflexivity.
  - reflexivity.
Defined.

Lemma X2_compilation_throws_iff_non_object_entry_witness :
  createHyperSubLayers undefined_entry_map = TypeError.
Proof.
  apply (proj2 (X2_compilation_throws_iff_non_object_entry undefined_entry_map)).
  exists "m", JUndefined; split; [right; left; reflexivity|discriminate].
Defined.
